(** * pyLottoScraper: the frequency analyser of [lottery_analyzer.py]

    A shallow embedding of class [LotteryAnalyzer] and the properties of
    its frequency tables, rankings and generated entries.

    Conventions of the embedding.
    - Python [int] is [Z]; a Python [str] is a [string] whose characters
      are code points below 256, and [isspace], [isdigit] and [int()]
      are given on those.
    - A [dict] is an association list in insertion order: [sorted] is
      stable, so the iteration order of the mapping decides ties.
    - The database is read only.  It is a function from a table name to
      the rows of its [numbers] column ([TEXT NOT NULL] in the schema of
      [lottery_scraper.py]), or to nothing when the [SELECT] fails.
    - Exceptions are the [Raise] results of [result].
    - Module [random] is a state monad over an explicit source of
      integers: every draw of [randbelow n] reads the next value of a
      tape and reduces it below [n]. *)

From Stdlib Require Import String Ascii.
From Stdlib Require Import ZArith Bool Arith Lia.
From Stdlib Require Import List Sorted Permutation.
Import ListNotations.

Local Open Scope string_scope.
Local Open Scope list_scope.
Local Open Scope Z_scope.

(* ------------------------------------------------------------------ *)
(** ** Exceptions and results *)

Inductive exn : Type :=
| OperationalError   (* sqlite3: the SELECT failed *)
| ValueError         (* int() on a token that is not decimal *)
| IndexError         (* random.choice on an empty sequence *)
| FuelExhausted.     (* the loop budget of the model ran out; not a Python exception *)

Inductive result (A : Type) : Type :=
| Ok (a : A)
| Raise (e : exn).

Arguments Ok {A} a.
Arguments Raise {A} e.

Definition bind_result {A B} (c : result A) (k : A -> result B) : result B :=
  match c with
  | Ok a => k a
  | Raise e => Raise e
  end.

Notation "x <~ c ;; k" := (bind_result c (fun x => k))
  (at level 61, c at next level, right associativity).

Fixpoint map_result {A B} (f : A -> result B) (l : list A) : result (list B) :=
  match l with
  | [] => Ok []
  | a :: l' => b <~ f a ;; bs <~ map_result f l' ;; Ok (b :: bs)
  end.

(* ------------------------------------------------------------------ *)
(** ** The string methods used by [get_all_drawn_numbers] *)

Module PyStr.

Local Open Scope nat_scope.

(** [str.isspace] on one character, for code points below 256. *)
Definition is_space (c : ascii) : bool :=
  let n := nat_of_ascii c in
  ((9 <=? n) && (n <=? 13)) || ((28 <=? n) && (n <=? 32))
  || (n =? 133) || (n =? 160).

(** The characters [int()] reads as decimal digits: '0' to '9'. *)
Definition is_decimal (c : ascii) : bool :=
  let n := nat_of_ascii c in (48 <=? n) && (n <=? 57).

(** [str.isdigit] on one character: the decimal digits and the
    superscripts two, three and one (178, 179, 185), which are digits
    for [isdigit] but not for [int()]. *)
Definition is_digit (c : ascii) : bool :=
  let n := nat_of_ascii c in
  is_decimal c || (n =? 178) || (n =? 179) || (n =? 185).

Fixpoint all_chars (p : ascii -> bool) (s : string) : bool :=
  match s with
  | EmptyString => true
  | String c s' => p c && all_chars p s'
  end.

Definition is_empty (s : string) : bool :=
  match s with EmptyString => true | _ => false end.

(** [s.isdigit()]: every character is a digit and there is at least one. *)
Definition isdigit (s : string) : bool :=
  negb (is_empty s) && all_chars is_digit s.

Fixpoint lstrip_by (space : ascii -> bool) (s : string) : string :=
  match s with
  | EmptyString => EmptyString
  | String c s' => if space c then lstrip_by space s' else s
  end.

Fixpoint rstrip_by (space : ascii -> bool) (s : string) : string :=
  match s with
  | EmptyString => EmptyString
  | String c s' =>
      match rstrip_by space s' with
      | EmptyString => if space c then EmptyString else String c EmptyString
      | r => String c r
      end
  end.

(** [s.strip()]: the characters of [isspace] are removed at both ends. *)
Definition strip (s : string) : string :=
  rstrip_by is_space (lstrip_by is_space s).

(** [s.split(sep)] for a one-character separator. *)
Fixpoint split (sep : ascii) (s : string) : list string :=
  match s with
  | EmptyString => [EmptyString]
  | String c s' =>
      if Ascii.eqb c sep then EmptyString :: split sep s'
      else match split sep s' with
           | [] => [String c EmptyString]
           | tok :: rest => String c tok :: rest
           end
  end.

Fixpoint decimal_value (acc : Z) (s : string) : Z :=
  match s with
  | EmptyString => acc
  | String c s' => decimal_value (10 * acc + Z.of_nat (nat_of_ascii c - 48))%Z s'
  end.

(** The white space [int()] skips around a number: that of [isspace]
    without the separators 28 to 31. *)
Definition is_int_space (c : ascii) : bool :=
  let n := nat_of_ascii c in
  ((9 <=? n) && (n <=? 13)) || (n =? 32) || (n =? 133) || (n =? 160).

(** [sys.int_info.default_max_str_digits]: longer decimal strings are
    refused by [int()]. *)
Definition max_str_digits : nat := 4300.

(** The text [int()] reads its digits from. *)
Definition int_text (s : string) : string :=
  rstrip_by is_int_space (lstrip_by is_int_space s).

(** [int(s)] on the strings the caller passes, those whose stripped text
    satisfies [isdigit]: the white space around the number is skipped
    and decimal digits are read in base ten; a digit that is not
    decimal, a separator 28 to 31 left around the digits, or too many
    digits raise [ValueError]. *)
Definition int (s : string) : result Z :=
  let t := int_text s in
  if negb (is_empty t) && all_chars is_decimal t
     && (String.length t <=? max_str_digits)
  then Ok (decimal_value 0%Z t)
  else Raise ValueError.

(** The decimal digits of [n >= 0], most significant first: the last
    digit goes in front of [acc], and the digits of [n / 10] in front of
    it while there are some left. *)
Fixpoint digits_from (fuel : nat) (n : Z) (acc : string) : string :=
  let acc' := String (ascii_of_nat (48 + Z.to_nat (n mod 10)%Z)) acc in
  match fuel with
  | O => acc'
  | S fuel' => if (n <? 10)%Z then acc' else digits_from fuel' (n / 10)%Z acc'
  end.

Definition decimal_digits (n : Z) : string :=
  digits_from (Z.to_nat (Z.log2 n)) n EmptyString.

(** [str(n)] for an [int]: the decimal digits, after a minus sign for a
    negative number; more than [max_str_digits] digits raise
    [ValueError]. *)
Definition str (n : Z) : result string :=
  let d := decimal_digits (Z.abs n) in
  if String.length d <=? max_str_digits
  then Ok (if (n <? 0)%Z then String "-" d else d)
  else Raise ValueError.

(** [sep.join(l)] *)
Fixpoint join (sep : string) (l : list string) : string :=
  match l with
  | [] => EmptyString
  | [x] => x
  | x :: rest => String.append x (String.append sep (join sep rest))
  end.

End PyStr.

(* ------------------------------------------------------------------ *)
(** ** Lists: [sorted], slices, [range], membership *)

(** [x] goes in front of the first element it does not have to follow;
    elements with the same key keep their order. *)
Fixpoint insert_by {A} (key : A -> Z) (reverse : bool) (x : A) (l : list A)
  : list A :=
  match l with
  | [] => [x]
  | y :: l' =>
      if (if reverse then key y <=? key x else key x <=? key y)
      then x :: y :: l'
      else y :: insert_by key reverse x l'
  end.

(** [sorted(l, key=key, reverse=reverse)]: the stable sort of [l]. *)
Fixpoint sorted {A} (key : A -> Z) (reverse : bool) (l : list A) : list A :=
  match l with
  | [] => []
  | x :: l' => insert_by key reverse x (sorted key reverse l')
  end.

(** [l[:count]]; a negative [count] is counted from the end. *)
Definition slice_to {A} (count : Z) (l : list A) : list A :=
  if count <? 0
  then firstn (Z.to_nat (Z.of_nat (length l) + count)) l
  else firstn (Z.to_nat count) l.

(** [range(lo, hi)] *)
Definition py_range (lo hi : Z) : list Z :=
  map (fun i => lo + Z.of_nat i) (seq 0 (Z.to_nat (hi - lo))).

(** [n in l] *)
Definition mem (n : Z) (l : list Z) : bool := existsb (Z.eqb n) l.

(** [l[j] = v] for [j] within the list. *)
Fixpoint list_set {A} (j : nat) (v : A) (l : list A) : list A :=
  match l, j with
  | [], _ => []
  | _ :: l', O => v :: l'
  | x :: l', S j' => x :: list_set j' v l'
  end.

(* ------------------------------------------------------------------ *)
(** ** The source of randomness *)

Record rng : Type := { tape : nat -> nat; pos : nat }.

Definition M (A : Type) : Type := rng -> result (A * rng).

Definition ret {A} (a : A) : M A := fun g => Ok (a, g).

Definition raise {A} (e : exn) : M A := fun _ => Raise e.

Definition bind {A B} (c : M A) (k : A -> M B) : M B :=
  fun g => match c g with
           | Ok (a, g') => k a g'
           | Raise e => Raise e
           end.

Definition lift {A} (c : result A) : M A :=
  fun g => match c with
           | Ok a => Ok (a, g)
           | Raise e => Raise e
           end.

Notation "x <- c ;; k" := (bind c (fun x => k))
  (at level 61, c at next level, right associativity).

(** [random._randbelow(n)] for [n > 0]: the next value of the tape,
    reduced below [n]. *)
Definition randbelow (n : nat) : M nat :=
  fun g => Ok (Nat.modulo (tape g (pos g)) n,
               {| tape := tape g; pos := S (pos g) |}).

(** [random.choice(seq)] *)
Definition choice {A} (seq : list A) : M A :=
  match seq with
  | [] => raise IndexError
  | d :: _ => j <- randbelow (length seq) ;; ret (nth j seq d)
  end.

(** The loop of [random.sample] over its pool: the element at a random
    index is taken, and the last element of the pool moves into its
    place. *)
Fixpoint sample_loop {A} (k : nat) (pool : list A) : M (list A) :=
  match k with
  | O => ret []
  | S k' =>
      match pool with
      | [] => raise ValueError
      | d :: _ =>
          j <- randbelow (length pool) ;;
          let x := nth j pool d in
          let pool' := removelast (list_set j (last pool d) pool) in
          rest <- sample_loop k' pool' ;;
          ret (x :: rest)
      end
  end.

(** [random.sample(population, k)].  For the populations of this program,
    49 or 50 numbers with [k] 6 or 7, [sample] works on a copy of the
    population as its pool; that is the loop above. *)
Definition sample {A} (population : list A) (k : Z) : M (list A) :=
  if (k <? 0) || (Z.of_nat (length population) <? k)
  then raise ValueError
  else sample_loop (Z.to_nat k) population.

(* ------------------------------------------------------------------ *)
(** ** class [LotteryAnalyzer] *)

(** The database at [db_path], as the analyser sees it: the rows of
    [SELECT numbers FROM <table>], or [None] when the statement fails. *)
Definition database : Type := string -> option (list string).

(** A frequency table: the items of the [dict], in insertion order. *)
Definition frequency_table : Type := list (Z * Z).

(** One element of the list built by [generate_optimal_entries]. *)
Record entry : Type := {
  entry_number : Z;
  strategy : string;
  numbers : list Z
}.

(** [[int(n) for n in numbers_str.split(',') if n.strip().isdigit()]] *)
Definition parse_numbers (numbers_str : string) : result (list Z) :=
  map_result PyStr.int
    (filter (fun n => PyStr.isdigit (PyStr.strip n))
            (PyStr.split "," numbers_str)).

(** The loop of [get_all_drawn_numbers] over the fetched rows. *)
Fixpoint parse_rows (rows : list string) : result (list (list Z)) :=
  match rows with
  | [] => Ok []
  | numbers_str :: rows' =>
      if PyStr.is_empty numbers_str then parse_rows rows'
      else
        numbers <~ parse_numbers numbers_str ;;
        all_draws <~ parse_rows rows' ;;
        Ok (numbers :: all_draws)
  end.

(** [frequency[k] += 1], a new key going to the end of the mapping. *)
Fixpoint counter_add (k : Z) (frequency : frequency_table) : frequency_table :=
  match frequency with
  | [] => [(k, 1)]
  | (k', c) :: rest =>
      if k =? k' then (k', c + 1) :: rest
      else (k', c) :: counter_add k rest
  end.

(** [Counter.update(draw)] *)
Definition counter_update (frequency : frequency_table) (draw : list Z)
  : frequency_table :=
  fold_left (fun f k => counter_add k f) draw frequency.

(** The table of a list of draws: the loop of [calculate_frequency]. *)
Definition count_draws (all_draws : list (list Z)) : frequency_table :=
  fold_left counter_update all_draws [].

(** The expression returned by [get_most_frequent_numbers]. *)
Definition rank_most_frequent (frequency : frequency_table) (count : Z)
  : list (Z * Z) :=
  slice_to count (sorted snd true frequency).

(** The expression returned by [get_least_frequent_numbers]. *)
Definition rank_least_frequent (frequency : frequency_table) (count : Z)
  : list (Z * Z) :=
  slice_to count (sorted snd false frequency).

Definition get_number_ranges (lottery_type : string) : Z * Z :=
  if String.eqb lottery_type "lotto649" then (1, 49)
  else if String.eqb lottery_type "lottomax" then (1, 50)
  else (1, 49).

(** [numbers_needed] of [generate_frequency_based_entry]. *)
Definition numbers_needed_of (lottery_type : string) : Z :=
  if String.eqb lottery_type "lotto649" then 6 else 7.

(** [[n for n in range(min_num, max_num + 1) if n not in selected]] *)
Definition remaining_pool_of (min_num max_num : Z) (selected : list Z)
  : list Z :=
  filter (fun n => negb (mem n selected)) (py_range min_num (max_num + 1)).

(** The [while] loop of the balanced strategy.  Every iteration appends
    one number, so a budget of [numbers_needed] iterations is never
    exhausted. *)
Fixpoint fill_remaining (fuel : nat) (min_num max_num numbers_needed : Z)
  (selected : list Z) : M (list Z) :=
  if Z.of_nat (length selected) <? numbers_needed then
    match fuel with
    | O => raise FuelExhausted
    | S fuel' =>
        let remaining_pool := remaining_pool_of min_num max_num selected in
        x <- choice remaining_pool ;;
        fill_remaining fuel' min_num max_num numbers_needed (selected ++ [x])
    end
  else ret selected.

Definition strategies : list string :=
  ["hot"; "balanced"; "cold"; "random"; "hot"].

Section Analyzer.

Variable db : database.

Definition get_all_drawn_numbers (lottery_type : string)
  : result (list (list Z)) :=
  let table_name := String.append lottery_type "_results" in
  match db table_name with
  | None => Raise OperationalError
  | Some rows => parse_rows rows
  end.

Definition calculate_frequency (lottery_type : string)
  : result frequency_table :=
  all_draws <~ get_all_drawn_numbers lottery_type ;;
  Ok (count_draws all_draws).

Definition get_most_frequent_numbers (lottery_type : string) (count : Z)
  : result (list (Z * Z)) :=
  frequency <~ calculate_frequency lottery_type ;;
  Ok (rank_most_frequent frequency count).

Definition get_least_frequent_numbers (lottery_type : string) (count : Z)
  : result (list (Z * Z)) :=
  frequency <~ calculate_frequency lottery_type ;;
  Ok (rank_least_frequent frequency count).

(** [generate_frequency_based_entry]; [depth] bounds the nesting of its
    call to itself, which happens once, with strategy "balanced". *)
Fixpoint generate_entry_at (depth : nat) (lottery_type strategy : string)
  : M (list Z) :=
  match depth with
  | O => raise FuelExhausted
  | S depth' =>
      let '(min_num, max_num) := get_number_ranges lottery_type in
      let numbers_needed := numbers_needed_of lottery_type in
      frequency <- lift (calculate_frequency lottery_type) ;;
      match frequency with
      | [] =>
          selected <- sample (py_range min_num (max_num + 1)) numbers_needed ;;
          ret (sorted id false selected)
      | _ :: _ =>
          if String.eqb strategy "hot" then
            most_frequent <-
              lift (get_most_frequent_numbers lottery_type (numbers_needed * 2)) ;;
            let candidates := map fst most_frequent in
            let selected := slice_to (numbers_needed - 1) candidates in
            let remaining_pool := remaining_pool_of min_num max_num selected in
            x <- choice remaining_pool ;;
            ret (sorted id false (selected ++ [x]))
          else if String.eqb strategy "cold" then
            least_frequent <-
              lift (get_least_frequent_numbers lottery_type (numbers_needed * 2)) ;;
            let candidates := map fst least_frequent in
            let selected := slice_to numbers_needed candidates in
            ret (sorted id false selected)
          else if String.eqb strategy "balanced" then
            hot_numbers <-
              lift (get_most_frequent_numbers lottery_type numbers_needed) ;;
            cold_numbers <-
              lift (get_least_frequent_numbers lottery_type numbers_needed) ;;
            let hot_picks := map fst (slice_to (numbers_needed / 2) hot_numbers) in
            let cold_picks := map fst (slice_to (numbers_needed / 2) cold_numbers) in
            selected <-
              fill_remaining (Z.to_nat numbers_needed) min_num max_num
                numbers_needed (hot_picks ++ cold_picks) ;;
            ret (sorted id false selected)
          else if String.eqb strategy "random" then
            selected <- sample (py_range min_num (max_num + 1)) numbers_needed ;;
            ret (sorted id false selected)
          else
            generate_entry_at depth' lottery_type "balanced"
      end
  end.

Definition generate_frequency_based_entry (lottery_type strategy : string)
  : M (list Z) :=
  generate_entry_at 2 lottery_type strategy.

(** The [for] loop of [generate_optimal_entries] over [range(num_entries)]. *)
Fixpoint entries_loop (lottery_type : string) (indices : list Z)
  (entries : list entry) : M (list entry) :=
  match indices with
  | [] => ret entries
  | i :: indices' =>
      let strategy := nth (Z.to_nat (i mod Z.of_nat (length strategies)))
                          strategies "" in
      numbers <- generate_frequency_based_entry lottery_type strategy ;;
      entries_loop lottery_type indices'
        (entries ++ [{| entry_number := i + 1;
                        strategy := strategy;
                        numbers := numbers |}])
  end.

Definition generate_optimal_entries (lottery_type : string) (num_entries : Z)
  : M (list entry) :=
  entries_loop lottery_type (py_range 0 num_entries) [].

End Analyzer.

(** A source of randomness that starts at the front of a tape. *)
Definition rng_of (t : nat -> nat) : rng := {| tape := t; pos := 0 |}.

(** The result of a computation, without the final state of the source. *)
Definition run {A} (c : M A) (g : rng) : result A :=
  match c g with
  | Ok (a, _) => Ok a
  | Raise e => Raise e
  end.

(** A database with one table. *)
Definition single_table (name : string) (rows : list string) : database :=
  fun table_name => if String.eqb table_name name then Some rows else None.

Definition keys (frequency : frequency_table) : list Z := map fst frequency.
Definition values (frequency : frequency_table) : list Z := map snd frequency.

(** [frequency.get(k, 0)] *)
Fixpoint get_count (frequency : frequency_table) (k : Z) : Z :=
  match frequency with
  | [] => 0
  | (k', c) :: rest => if k =? k' then c else get_count rest k
  end.

Definition sum (l : list Z) : Z := fold_right Z.add 0 l.

(** The order [sorted] establishes on the keys. *)
Definition key_order {A} (key : A -> Z) (reverse : bool) (a b : A) : Prop :=
  if reverse then key b <= key a else key a <= key b.

(** The elements of [l] whose key is [c], in the order of [l]. *)
Definition with_key {A} (key : A -> Z) (c : Z) (l : list A) : list A :=
  filter (fun p => key p =? c) l.

(** The numbers of a table lie in the range of the lottery. *)
Definition in_range (min_num max_num : Z) (l : list Z) : Prop :=
  Forall (fun n => min_num <= n <= max_num) l.

(** What the data model asks of an entry. *)
Definition valid_entry (lottery_type : string) (e : list Z) : Prop :=
  Z.of_nat (length e) = numbers_needed_of lottery_type /\
  NoDup e /\
  StronglySorted Z.le e /\
  in_range (fst (get_number_ranges lottery_type))
           (snd (get_number_ranges lottery_type)) e.

(** The tokens of a stored string that pass the [isdigit] test. *)
Definition digit_tokens (numbers_str : string) : list string :=
  filter (fun n => PyStr.isdigit (PyStr.strip n)) (PyStr.split "," numbers_str).

(** The number [int()] reads from a token. *)
Definition token_value (tok : string) : Z :=
  PyStr.decimal_value 0 (PyStr.int_text tok).

(** The values [generate_frequency_based_entry] computes from a
    non-empty table before it draws anything. *)
Definition hot_selection (lottery_type : string) (frequency : frequency_table)
  : list Z :=
  let numbers_needed := numbers_needed_of lottery_type in
  slice_to (numbers_needed - 1)
    (map fst (rank_most_frequent frequency (numbers_needed * 2))).

Definition cold_selection (lottery_type : string) (frequency : frequency_table)
  : list Z :=
  let numbers_needed := numbers_needed_of lottery_type in
  slice_to numbers_needed
    (map fst (rank_least_frequent frequency (numbers_needed * 2))).

Definition balanced_picks (lottery_type : string) (frequency : frequency_table)
  : list Z :=
  let numbers_needed := numbers_needed_of lottery_type in
  map fst (slice_to (numbers_needed / 2)
             (rank_most_frequent frequency numbers_needed))
  ++ map fst (slice_to (numbers_needed / 2)
                (rank_least_frequent frequency numbers_needed)).

(** The pool of the lottery's numbers outside [selected]. *)
Definition pool_of (lottery_type : string) (selected : list Z) : list Z :=
  remaining_pool_of (fst (get_number_ranges lottery_type))
                    (snd (get_number_ranges lottery_type)) selected.

(** The fallback of an empty table, and the random strategy. *)
Definition random_entry (lottery_type : string) : M (list Z) :=
  selected <- sample (py_range (fst (get_number_ranges lottery_type))
                               (snd (get_number_ranges lottery_type) + 1))
                     (numbers_needed_of lottery_type) ;;
  ret (sorted id false selected).

(** When the numbers a strategy takes from the table are enough, and
    distinct, for an entry. *)
Definition enough_for (lottery_type strategy : string)
  (frequency : frequency_table) : Prop :=
  if String.eqb strategy "hot"
  then numbers_needed_of lottery_type - 1 <= Z.of_nat (length (keys frequency))
  else if String.eqb strategy "cold"
  then numbers_needed_of lottery_type <= Z.of_nat (length (keys frequency))
  else if String.eqb strategy "random" then True
  else NoDup (balanced_picks lottery_type frequency).

Definition known_strategy (strategy : string) : bool :=
  String.eqb strategy "hot" || String.eqb strategy "cold"
  || String.eqb strategy "balanced" || String.eqb strategy "random".

(** What the loop of [generate_optimal_entries] appends for the index [i]. *)
Definition entry_for (i : Z) (e : entry) : Prop :=
  entry_number e = i + 1 /\
  strategy e = nth (Z.to_nat (i mod 5)) strategies "".

(* ------------------------------------------------------------------ *)
(** ** The stored form of a draw *)

(** [','.join(map(str, numbers))], the text [store_lotto649_results] and
    [store_lottomax_results] of [lottery_scraper.py] put in the column
    [numbers], and the sample data loader as well. *)
Definition numbers_text (numbers : list Z) : result string :=
  strs <~ map_result PyStr.str numbers ;;
  Ok (PyStr.join "," strs).

(** An element of a batch: its number and strategy follow from its
    index, and its numbers are what [generate_frequency_based_entry]
    returned for that strategy. *)
Definition entry_from (db : database) (lottery_type : string)
  (i : Z) (e : entry) : Prop :=
  entry_for i e /\
  exists g g',
    generate_frequency_based_entry db lottery_type (strategy e) g
      = Ok (numbers e, g').

(** The numbers of a list in the order of their first occurrence. *)
Fixpoint first_occurrences (l : list Z) : list Z :=
  match l with
  | [] => []
  | x :: l' => x :: filter (fun y => negb (y =? x)) (first_occurrences l')
  end.

(* ------------------------------------------------------------------ *)
(** ** The numbers of a table row of the results page

    [parse_lotto649_results] and [parse_lottomax_results] of
    [lottery_scraper.py], from the text of the second cell of a row
    on: the numbers found by the regular expression, the ones kept, and
    the draw made of them. *)

Module Scraper.

(** The characters the regular expression class [\w] matches, for code
    points below 256. *)
Definition is_word (c : ascii) : bool :=
  let n := nat_of_ascii c in
  (((48 <=? n) && (n <=? 57)) || ((65 <=? n) && (n <=? 90)) || (n =? 95)
   || ((97 <=? n) && (n <=? 122)) || (n =? 170) || (n =? 178) || (n =? 179)
   || (n =? 181) || (n =? 185) || (n =? 186) || ((188 <=? n) && (n <=? 190))
   || ((192 <=? n) && (n <=? 214)) || ((216 <=? n) && (n <=? 246))
   || ((248 <=? n) && (n <=? 255)))%nat.

(** The class [[1-4]] or [[1-5]]: the digits from '1' to [lead_max]. *)
Definition is_lead (lead_max : nat) (c : ascii) : bool :=
  let n := nat_of_ascii c in ((49 <=? n) && (n <=? lead_max))%nat.

(** The boundary [\b] after a digit: the text ends or goes on with a
    character that is not of [\w]. *)
Definition ends_word (rest : string) : bool :=
  match rest with
  | EmptyString => true
  | String c _ => negb (is_word c)
  end.

(** [re.findall(r'\b([1-4]?\d)\b', s)], the last digit of the class
    being [lead_max]: at a position that follows no character of [\w],
    two characters are tried first, a leading digit of the class and a
    digit, then one digit; a match is kept when a boundary follows, and
    the search goes on after it. *)
Fixpoint findall_numbers (lead_max : nat) (prev_word : bool) (s : string)
  : list string :=
  match s with
  | EmptyString => []
  | String c1 rest =>
      if prev_word then findall_numbers lead_max (is_word c1) rest
      else
        match rest with
        | String c2 rest2 =>
            if is_lead lead_max c1 && PyStr.is_decimal c2 && ends_word rest2
            then String c1 (String c2 EmptyString)
                 :: findall_numbers lead_max true rest2
            else if PyStr.is_decimal c1 && ends_word rest
            then String c1 EmptyString :: findall_numbers lead_max true rest
            else findall_numbers lead_max (is_word c1) rest
        | EmptyString =>
            if PyStr.is_decimal c1 then [String c1 EmptyString] else []
        end
  end.

(** [[int(n) for n in numbers if 1 <= int(n) <= hi]] *)
Fixpoint keep_in_range (hi : Z) (found : list string) : result (list Z) :=
  match found with
  | [] => Ok []
  | n :: found' =>
      v <~ PyStr.int n ;;
      if (1 <=? v) && (v <=? hi)
      then v' <~ PyStr.int n ;;
           rest <~ keep_in_range hi found' ;;
           Ok (v' :: rest)
      else keep_in_range hi found'
  end.

(** The draw of a row: [needed] numbers and the bonus number, if the row
    has that many numbers, and no draw otherwise. *)
Definition row_draw (lead_max : nat) (hi : Z) (needed : nat)
  (numbers_text : string) : result (option (list Z * option Z)) :=
  numbers <~ keep_in_range hi (findall_numbers lead_max false numbers_text) ;;
  if (needed <=? length numbers)%nat
  then Ok (Some (firstn needed numbers,
                 if (needed <? length numbers)%nat
                 then nth_error numbers needed
                 else None))
  else Ok None.

Definition lotto649_row_draw : string -> result (option (list Z * option Z)) :=
  row_draw 52 49 6.

Definition lottomax_row_draw : string -> result (option (list Z * option Z)) :=
  row_draw 53 50 7.

End Scraper.

(** Histories used as examples. *)
Definition lotto649_single_draw : database :=
  single_table "lotto649_results" ["1,2,3,4,5,6"].

Definition lotto649_out_of_range : database :=
  single_table "lotto649_results" ["3,99"].

Definition lotto649_repeats : database :=
  single_table "lotto649_results" ["7,7,3"; "-5,abc, 7 ,x1"].

Definition powerball_no_draws : database :=
  single_table "powerball_results" [].

Definition sample_table : frequency_table :=
  [(7, 10); (13, 9); (20, 8); (1, 9); (2, 10)].

(** Case analysis on the comparisons of character codes. *)
Ltac decide_codes :=
  repeat match goal with
         | |- context [Nat.leb ?a ?b] => destruct (Nat.leb_spec a b)
         | |- context [Nat.eqb ?a ?b] => destruct (Nat.eqb_spec a b)
         end;
  simpl; try reflexivity; try lia.

(* ================================================================== *)
(** * Properties *)

(* ------------------------------------------------------------------ *)
(** ** [sorted] *)

Section Sorted.

Context {A : Type} (key : A -> Z) (reverse : bool).

Lemma insert_by_perm (x : A) (l : list A) :
  Permutation (insert_by key reverse x l) (x :: l).
Proof.
  induction l as [|y l IH]; simpl.
  - apply Permutation_refl.
  - destruct (if reverse then key y <=? key x else key x <=? key y).
    + apply Permutation_refl.
    + eapply perm_trans; [apply perm_skip, IH | apply perm_swap].
Qed.

Lemma sorted_perm (l : list A) : Permutation (sorted key reverse l) l.
Proof.
  induction l as [|x l IH]; simpl.
  - constructor.
  - eapply perm_trans; [apply insert_by_perm | now apply perm_skip].
Qed.

Lemma sorted_length (l : list A) : length (sorted key reverse l) = length l.
Proof. apply Permutation_length, sorted_perm. Qed.

Lemma sorted_In (l : list A) (x : A) : In x (sorted key reverse l) <-> In x l.
Proof.
  split; apply Permutation_in;
    [apply sorted_perm | apply Permutation_sym, sorted_perm].
Qed.

Lemma key_order_total (a b : A) :
  key_order key reverse a b \/ key_order key reverse b a.
Proof. unfold key_order; destruct reverse; lia. Qed.

Lemma key_order_trans (a b c : A) :
  key_order key reverse a b -> key_order key reverse b c ->
  key_order key reverse a c.
Proof. unfold key_order; destruct reverse; lia. Qed.

Lemma insert_by_ordered (x : A) (l : list A) :
  StronglySorted (key_order key reverse) l ->
  StronglySorted (key_order key reverse) (insert_by key reverse x l).
Proof.
  induction 1 as [|y l Hl IH Hy]; simpl.
  - repeat constructor.
  - destruct (if reverse then key y <=? key x else key x <=? key y) eqn:E.
    + assert (Hxy : key_order key reverse x y).
      { unfold key_order; destruct reverse; lia. }
      constructor; [now constructor|].
      constructor; [exact Hxy|].
      rewrite Forall_forall in *; intros z Hz.
      eapply key_order_trans; [exact Hxy | now apply Hy].
    + assert (Hyx : key_order key reverse y x).
      { unfold key_order; destruct reverse; lia. }
      constructor; [exact IH|].
      rewrite Forall_forall in *; intros z Hz.
      apply (Permutation_in _ (insert_by_perm x l)) in Hz.
      destruct Hz as [<-|Hz]; [exact Hyx | now apply Hy].
Qed.

Lemma sorted_ordered (l : list A) :
  StronglySorted (key_order key reverse) (sorted key reverse l).
Proof.
  induction l as [|x l IH]; simpl; [constructor | now apply insert_by_ordered].
Qed.

Lemma insert_by_with_key (c : Z) (x : A) (l : list A) :
  with_key key c (insert_by key reverse x l) = with_key key c (x :: l).
Proof.
  induction l as [|y l IH]; simpl; [reflexivity|].
  destruct (if reverse then key y <=? key x else key x <=? key y) eqn:E;
    [reflexivity|].
  simpl in *. rewrite IH.
  destruct (key x =? c) eqn:Ex; [|reflexivity].
  assert ((key y =? c) = false) as -> by (destruct reverse; lia).
  reflexivity.
Qed.

(** Stability: the elements with one key keep the order they had. *)
Lemma sorted_stable (c : Z) (l : list A) :
  with_key key c (sorted key reverse l) = with_key key c l.
Proof.
  induction l as [|x l IH]; simpl; [reflexivity|].
  rewrite insert_by_with_key. simpl. now rewrite IH.
Qed.

End Sorted.

Lemma sorted_id_sorted (l : list Z) : StronglySorted Z.le (sorted id false l).
Proof. exact (sorted_ordered id false l). Qed.

Lemma sorted_NoDup {A} (key : A -> Z) (reverse : bool) (l : list A) :
  NoDup l -> NoDup (sorted key reverse l).
Proof.
  apply Permutation_NoDup, Permutation_sym, sorted_perm.
Qed.

Lemma sorted_map_fst_perm (reverse : bool) (t : list (Z * Z)) :
  Permutation (map fst (sorted snd reverse t)) (map fst t).
Proof. apply Permutation_map, sorted_perm. Qed.

(* ------------------------------------------------------------------ *)
(** ** Slices *)

Lemma slice_to_nonneg {A} (count : Z) (l : list A) :
  0 <= count -> slice_to count l = firstn (Z.to_nat count) l.
Proof. intros H; unfold slice_to. destruct (count <? 0) eqn:E; [lia|reflexivity]. Qed.

Lemma slice_to_length {A} (count : Z) (l : list A) :
  0 <= count ->
  Z.of_nat (length (slice_to count l)) = Z.min count (Z.of_nat (length l)).
Proof.
  intros H. rewrite slice_to_nonneg by exact H. rewrite length_firstn. lia.
Qed.

Lemma firstn_incl {A} (n : nat) (l : list A) (x : A) :
  In x (firstn n l) -> In x l.
Proof.
  intros H. rewrite <- (firstn_skipn n l). apply in_or_app. now left.
Qed.

Lemma firstn_NoDup {A} (n : nat) (l : list A) : NoDup l -> NoDup (firstn n l).
Proof.
  intros H. rewrite <- (firstn_skipn n l) in H.
  now apply NoDup_app_remove_r in H.
Qed.

Lemma slice_to_incl {A} (count : Z) (l : list A) (x : A) :
  In x (slice_to count l) -> In x l.
Proof.
  unfold slice_to. destruct (count <? 0); apply firstn_incl.
Qed.

Lemma slice_to_NoDup {A} (count : Z) (l : list A) :
  NoDup l -> NoDup (slice_to count l).
Proof.
  intros H. unfold slice_to. destruct (count <? 0); now apply firstn_NoDup.
Qed.

Lemma slice_to_map {A B} (f : A -> B) (count : Z) (l : list A) :
  slice_to count (map f l) = map f (slice_to count l).
Proof.
  unfold slice_to. rewrite length_map.
  destruct (count <? 0); now rewrite firstn_map.
Qed.

(* ------------------------------------------------------------------ *)
(** ** Counting: [Counter.update] and the table of a history *)

Lemma counter_add_get (k k' : Z) (f : frequency_table) :
  get_count (counter_add k f) k' =
  get_count f k' + (if k' =? k then 1 else 0).
Proof.
  induction f as [|[k0 c] f IH]; simpl.
  - destruct (k' =? k); reflexivity.
  - destruct (k =? k0) eqn:E; simpl.
    + apply Z.eqb_eq in E; subst k0.
      destruct (k' =? k); lia.
    + destruct (k' =? k0) eqn:E'; [|exact IH].
      assert ((k' =? k) = false) as -> by lia. lia.
Qed.

Lemma counter_add_keys (k k' : Z) (f : frequency_table) :
  In k' (keys (counter_add k f)) <-> k' = k \/ In k' (keys f).
Proof.
  induction f as [|[k0 c] f IH]; simpl.
  - intuition.
  - destruct (k =? k0) eqn:E; simpl.
    + apply Z.eqb_eq in E; subst k0. intuition.
    + rewrite IH. intuition.
Qed.

Lemma counter_add_NoDup (k : Z) (f : frequency_table) :
  NoDup (keys f) -> NoDup (keys (counter_add k f)).
Proof.
  induction f as [|[k0 c] f IH]; simpl; intros H.
  - repeat constructor. intros [].
  - destruct (k =? k0) eqn:E; simpl; [exact H|].
    inversion H as [|? ? Hn Hf]; subst. constructor; [|now apply IH].
    fold (keys (counter_add k f)). rewrite counter_add_keys.
    intros [->|Hin]; [lia | now apply Hn].
Qed.

Lemma counter_add_positive (k : Z) (f : frequency_table) :
  Forall (fun v => 0 < v) (values f) ->
  Forall (fun v => 0 < v) (values (counter_add k f)).
Proof.
  induction f as [|[k0 c] f IH]; simpl; intros H.
  - repeat constructor.
  - inversion H; subst.
    destruct (k =? k0); simpl; constructor; auto; lia.
Qed.

Lemma counter_add_sum (k : Z) (f : frequency_table) :
  sum (values (counter_add k f)) = sum (values f) + 1.
Proof.
  induction f as [|[k0 c] f IH]; simpl; [reflexivity|].
  destruct (k =? k0); simpl; [|rewrite IH]; lia.
Qed.

(** Updating draw by draw is updating with all drawn numbers in a row. *)
Lemma fold_counter_update (all_draws : list (list Z)) (f : frequency_table) :
  fold_left counter_update all_draws f =
  counter_update f (concat all_draws).
Proof.
  revert f; induction all_draws as [|d ds IH]; intros f; simpl; [reflexivity|].
  rewrite IH. unfold counter_update. now rewrite fold_left_app.
Qed.

Section CounterUpdate.

Variable f : frequency_table.

Lemma counter_update_get (ns : list Z) (k : Z) :
  get_count (counter_update f ns) k =
  get_count f k + Z.of_nat (count_occ Z.eq_dec ns k).
Proof.
  revert f; induction ns as [|n ns IH]; intros f0; simpl; [lia|].
  unfold counter_update in *; simpl. rewrite IH, counter_add_get.
  destruct (Z.eq_dec n k) as [->|Hne].
  - rewrite Z.eqb_refl. lia.
  - assert ((k =? n) = false) as -> by lia. lia.
Qed.

Lemma counter_update_keys (ns : list Z) (k : Z) :
  In k (keys (counter_update f ns)) <-> In k (keys f) \/ In k ns.
Proof.
  revert f; induction ns as [|n ns IH]; intros f0; simpl; [intuition|].
  unfold counter_update in *; simpl. rewrite IH, counter_add_keys.
  intuition.
Qed.

Lemma counter_update_NoDup (ns : list Z) :
  NoDup (keys f) -> NoDup (keys (counter_update f ns)).
Proof.
  revert f; induction ns as [|n ns IH]; intros f0 H; simpl; [exact H|].
  apply IH, counter_add_NoDup, H.
Qed.

Lemma counter_update_positive (ns : list Z) :
  Forall (fun v => 0 < v) (values f) ->
  Forall (fun v => 0 < v) (values (counter_update f ns)).
Proof.
  revert f; induction ns as [|n ns IH]; intros f0 H; simpl; [exact H|].
  apply IH, counter_add_positive, H.
Qed.

Lemma counter_update_sum (ns : list Z) :
  sum (values (counter_update f ns)) = sum (values f) + Z.of_nat (length ns).
Proof.
  revert f; induction ns as [|n ns IH]; intros f0; [simpl; lia|].
  unfold counter_update in *. cbn [fold_left length].
  rewrite IH, counter_add_sum. lia.
Qed.

End CounterUpdate.

Lemma count_draws_flat (all_draws : list (list Z)) :
  count_draws all_draws = counter_update [] (concat all_draws).
Proof. apply fold_counter_update. Qed.

Lemma count_draws_NoDup (all_draws : list (list Z)) :
  NoDup (keys (count_draws all_draws)).
Proof.
  rewrite count_draws_flat. apply counter_update_NoDup. constructor.
Qed.

Lemma count_draws_keys (all_draws : list (list Z)) (k : Z) :
  In k (keys (count_draws all_draws)) <->
  exists draw, In draw all_draws /\ In k draw.
Proof.
  rewrite count_draws_flat, counter_update_keys, in_concat. simpl.
  split.
  - intros [[]|[d Hd]]. now exists d.
  - intros [d Hd]. right. now exists d.
Qed.

(** With distinct keys, [get_count] reads the value stored at a key. *)
Lemma get_count_In (f : frequency_table) (k v : Z) :
  NoDup (keys f) -> In (k, v) f -> get_count f k = v.
Proof.
  induction f as [|[k0 c] f IH]; simpl; intros Hn Hin; [easy|].
  inversion Hn as [|? ? Hk Hf]; subst.
  destruct Hin as [Heq|Hin].
  - injection Heq as -> ->. now rewrite Z.eqb_refl.
  - destruct (k =? k0) eqn:E; [|now apply IH].
    apply Z.eqb_eq in E; subst k0. exfalso. apply Hk.
    change k with (fst (k, v)). now apply in_map.
Qed.

(* ------------------------------------------------------------------ *)
(** ** Reading the rows *)

Lemma decimal_value_nonneg (s : string) (acc : Z) :
  0 <= acc -> 0 <= PyStr.decimal_value acc s.
Proof.
  revert acc; induction s as [|c s IH]; intros acc H;
    cbn [PyStr.decimal_value]; [exact H|].
  apply IH. pose proof (Nat2Z.is_nonneg (nat_of_ascii c - 48)). lia.
Qed.

Lemma int_value (tok : string) (z : Z) :
  PyStr.int tok = Ok z -> z = token_value tok.
Proof.
  unfold PyStr.int, token_value.
  destruct (negb _ && _ && _); [|discriminate]. now intros [= <-].
Qed.

Lemma map_result_int (toks : list string) (ns : list Z) :
  map_result PyStr.int toks = Ok ns -> ns = map token_value toks.
Proof.
  revert ns; induction toks as [|t toks IH]; intros ns; simpl.
  - now intros [= <-].
  - destruct (PyStr.int t) as [z|e] eqn:Et; simpl; [|discriminate].
    destruct (map_result PyStr.int toks) as [zs|e]; simpl; [|discriminate].
    intros [= <-]. f_equal; [now apply int_value | now apply IH].
Qed.

Lemma parse_numbers_tokens (numbers_str : string) (draw : list Z) :
  parse_numbers numbers_str = Ok draw ->
  draw = map token_value (digit_tokens numbers_str).
Proof. apply map_result_int. Qed.

(** Every draw that was read comes from one of the rows. *)
Lemma parse_rows_origin (rows : list string) (all_draws : list (list Z)) :
  parse_rows rows = Ok all_draws ->
  forall draw, In draw all_draws ->
  exists numbers_str, In numbers_str rows /\
    draw = map token_value (digit_tokens numbers_str).
Proof.
  revert all_draws; induction rows as [|r rows IH]; intros ds; simpl.
  - intros [= <-] d [].
  - destruct (PyStr.is_empty r).
    + intros H d Hd. destruct (IH _ H d Hd) as [s [Hs Hm]]. eauto.
    + destruct (parse_numbers r) as [ns|e] eqn:Er; simpl; [|discriminate].
      destruct (parse_rows rows) as [ds'|e]; simpl; [|discriminate].
      intros [= <-] d [<-|Hd].
      * exists r. split; [now left | now apply parse_numbers_tokens].
      * destruct (IH _ eq_refl d Hd) as [s [Hs Hm]]. eauto.
Qed.

Lemma token_value_nonneg (tok : string) : 0 <= token_value tok.
Proof. apply decimal_value_nonneg. lia. Qed.

(* ------------------------------------------------------------------ *)
(** ** The frequency table of a history *)

Lemma calculate_frequency_inv (db : database) (lottery_type : string)
  (t : frequency_table) :
  calculate_frequency db lottery_type = Ok t ->
  exists rows all_draws,
    db (String.append lottery_type "_results") = Some rows /\
    parse_rows rows = Ok all_draws /\
    get_all_drawn_numbers db lottery_type = Ok all_draws /\
    t = count_draws all_draws.
Proof.
  unfold calculate_frequency, get_all_drawn_numbers.
  destruct (db _) as [rows|]; simpl; [|discriminate].
  destruct (parse_rows rows) as [ds|e] eqn:E; simpl; [|discriminate].
  intros [= <-]. now exists rows, ds.
Qed.

(** C3, as the code has it: the keys of the table are numbers of the
    draws that were read, so they lie within the range of the lottery
    whenever every number of every draw does.  Nothing checks the draws. *)
Theorem calculate_frequency_keys_in_range
  (db : database) (lottery_type : string)
  (all_draws : list (list Z)) (t : frequency_table) :
  get_all_drawn_numbers db lottery_type = Ok all_draws ->
  calculate_frequency db lottery_type = Ok t ->
  (forall k, In k (keys t) -> exists draw, In draw all_draws /\ In k draw) /\
  (Forall (in_range (fst (get_number_ranges lottery_type))
                    (snd (get_number_ranges lottery_type))) all_draws ->
   in_range (fst (get_number_ranges lottery_type))
            (snd (get_number_ranges lottery_type)) (keys t)).
Proof.
  intros Hd Ht. unfold calculate_frequency in Ht. rewrite Hd in Ht.
  simpl in Ht. injection Ht as <-.
  split.
  - intros k. apply count_draws_keys.
  - intros Hall. apply Forall_forall. intros k Hk.
    apply count_draws_keys in Hk. destruct Hk as [d [Hd1 Hd2]].
    rewrite Forall_forall in Hall. specialize (Hall d Hd1).
    unfold in_range in Hall. rewrite Forall_forall in Hall. now apply Hall.
Qed.

Lemma calculate_frequency_keys_in_range_witness :
  get_all_drawn_numbers lotto649_single_draw "lotto649"
    = Ok [[1; 2; 3; 4; 5; 6]] /\
  in_range 1 49 (keys [(1, 1); (2, 1); (3, 1); (4, 1); (5, 1); (6, 1)]).
Proof.
  split; [reflexivity|].
  apply (calculate_frequency_keys_in_range lotto649_single_draw "lotto649"
           [[1; 2; 3; 4; 5; 6]]
           [(1, 1); (2, 1); (3, 1); (4, 1); (5, 1); (6, 1)]);
    [reflexivity | reflexivity |].
  repeat constructor; simpl; lia.
Defined.

(** C3, as stated, fails: a stored draw "3,99" of Lotto 6/49 puts the
    key 99 into the table, outside 1..49. *)
Lemma calculate_frequency_key_out_of_range :
  calculate_frequency lotto649_out_of_range "lotto649"
    = Ok [(3, 1); (99, 1)] /\
  get_number_ranges "lotto649" = (1, 49) /\
  ~ in_range 1 49 (keys [(3, 1); (99, 1)]).
Proof.
  split; [reflexivity|]. split; [reflexivity|].
  intros H. inversion H as [|? ? _ H']; subst.
  inversion H' as [|? ? H99 _]; subst. lia.
Qed.

(** C7: the values of the table add up to the number of occurrences in
    the history, repeats counted; the value at a key is the number of
    times the key occurs, so twice in one draw counts two; and the table
    of a history is determined by the history. *)
Theorem calculate_frequency_counts
  (db : database) (lottery_type : string) (all_draws : list (list Z)) :
  get_all_drawn_numbers db lottery_type = Ok all_draws ->
  exists t,
    calculate_frequency db lottery_type = Ok t /\
    sum (values t) = Z.of_nat (length (concat all_draws)) /\
    NoDup (keys t) /\
    (forall k v, In (k, v) t ->
       v = Z.of_nat (count_occ Z.eq_dec (concat all_draws) k)) /\
    (forall draw k v, all_draws = [draw] -> In (k, v) t ->
       v = Z.of_nat (count_occ Z.eq_dec draw k)) /\
    (forall t', calculate_frequency db lottery_type = Ok t' -> t' = t).
Proof.
  intros Hd. exists (count_draws all_draws).
  assert (Hc : calculate_frequency db lottery_type = Ok (count_draws all_draws)).
  { unfold calculate_frequency. now rewrite Hd. }
  assert (Hv : forall k v, In (k, v) (count_draws all_draws) ->
                 v = Z.of_nat (count_occ Z.eq_dec (concat all_draws) k)).
  { intros k v Hin.
    rewrite <- (get_count_In _ k v (count_draws_NoDup all_draws) Hin).
    rewrite count_draws_flat, counter_update_get. simpl. lia. }
  repeat split.
  - exact Hc.
  - rewrite count_draws_flat, counter_update_sum. simpl. lia.
  - apply count_draws_NoDup.
  - exact Hv.
  - intros draw k v -> Hin. apply Hv in Hin. simpl in Hin.
    now rewrite app_nil_r in Hin.
  - intros t' Ht'. rewrite Hc in Ht'. now injection Ht'.
Qed.

Lemma calculate_frequency_counts_witness :
  get_all_drawn_numbers lotto649_repeats "lotto649" = Ok [[7; 7; 3]; [7]] /\
  exists t,
    calculate_frequency lotto649_repeats "lotto649" = Ok t /\
    sum (values t) = 4 /\
    NoDup (keys t) /\
    (forall k v, In (k, v) t ->
       v = Z.of_nat (count_occ Z.eq_dec [7; 7; 3; 7] k)) /\
    (forall draw k v, [[7; 7; 3]; [7]] = [draw] -> In (k, v) t ->
       v = Z.of_nat (count_occ Z.eq_dec draw k)) /\
    (forall t', calculate_frequency lotto649_repeats "lotto649" = Ok t' ->
       t' = t).
Proof.
  split; [reflexivity|].
  exact (calculate_frequency_counts lotto649_repeats "lotto649"
           [[7; 7; 3]; [7]] eq_refl).
Defined.

(** Twice in one draw counts two. *)
Example count_draws_repeat :
  count_draws [[7; 7; 3]] = [(7, 2); (3, 1)].
Proof. reflexivity. Qed.

(** C10: every value of the table is strictly positive; a number is a
    key exactly when it occurs in a draw that was read; every number of
    such a draw is the value of a token of a stored string all of whose
    characters, white space around it apart, are digits; and every key
    is non-negative. *)
Theorem calculate_frequency_positive
  (db : database) (lottery_type : string) (t : frequency_table) :
  calculate_frequency db lottery_type = Ok t ->
  exists rows all_draws,
    db (String.append lottery_type "_results") = Some rows /\
    get_all_drawn_numbers db lottery_type = Ok all_draws /\
    Forall (fun v => 0 < v) (values t) /\
    (forall k, In k (keys t) <-> exists draw, In draw all_draws /\ In k draw) /\
    (forall draw, In draw all_draws ->
       exists numbers_str, In numbers_str rows /\
         draw = map token_value
                  (filter (fun n => PyStr.isdigit (PyStr.strip n))
                          (PyStr.split "," numbers_str))) /\
    Forall (fun k => 0 <= k) (keys t).
Proof.
  intros Ht. destruct (calculate_frequency_inv _ _ _ Ht)
    as [rows [ds [Hdb [Hp [Hg ->]]]]].
  exists rows, ds. repeat split.
  - exact Hdb.
  - exact Hg.
  - rewrite count_draws_flat. apply counter_update_positive. constructor.
  - apply count_draws_keys.
  - apply count_draws_keys.
  - intros d Hd. exact (parse_rows_origin rows ds Hp d Hd).
  - apply Forall_forall. intros k Hk.
    apply count_draws_keys in Hk. destruct Hk as [d [Hd Hk]].
    destruct (parse_rows_origin rows ds Hp d Hd) as [s [_ ->]].
    apply in_map_iff in Hk. destruct Hk as [tok [<- _]].
    apply token_value_nonneg.
Qed.

Lemma calculate_frequency_positive_witness :
  calculate_frequency lotto649_repeats "lotto649" = Ok [(7, 3); (3, 1)] /\
  exists rows all_draws,
    lotto649_repeats (String.append "lotto649" "_results") = Some rows /\
    get_all_drawn_numbers lotto649_repeats "lotto649" = Ok all_draws /\
    Forall (fun v => 0 < v) (values [(7, 3); (3, 1)]) /\
    (forall k, In k (keys [(7, 3); (3, 1)]) <->
       exists draw, In draw all_draws /\ In k draw) /\
    (forall draw, In draw all_draws ->
       exists numbers_str, In numbers_str rows /\
         draw = map token_value
                  (filter (fun n => PyStr.isdigit (PyStr.strip n))
                          (PyStr.split "," numbers_str))) /\
    Forall (fun k => 0 <= k) (keys [(7, 3); (3, 1)]).
Proof.
  split; [reflexivity|].
  exact (calculate_frequency_positive lotto649_repeats "lotto649"
           [(7, 3); (3, 1)] eq_refl).
Defined.

(** Tokens that are negative, not numeric or empty are dropped. *)
Example parse_numbers_drops :
  parse_numbers "-5,abc, 7 ,x1,,08" = Ok [7; 8].
Proof. reflexivity. Qed.

(* ------------------------------------------------------------------ *)
(** ** Rankings *)

Lemma firstn_StronglySorted {A} (R : A -> A -> Prop) (n : nat) (l : list A) :
  StronglySorted R l -> StronglySorted R (firstn n l).
Proof.
  revert n; induction l as [|x l IH]; intros [|n] H; simpl;
    try constructor.
  - apply IH. now inversion H.
  - inversion H as [|? ? _ Hx]; subst.
    rewrite Forall_forall in *. intros y Hy. eapply Hx, firstn_incl, Hy.
Qed.

(** The first [count] elements of the stable sort in one direction. *)
Lemma rank_prefix (reverse : bool) (t : frequency_table) (count : Z) :
  0 <= count ->
  exists full,
    Permutation full t /\
    StronglySorted (key_order snd reverse) full /\
    (forall c, with_key snd c full = with_key snd c t) /\
    slice_to count (sorted snd reverse t) = firstn (Z.to_nat count) full /\
    StronglySorted (key_order snd reverse) (slice_to count (sorted snd reverse t)) /\
    Z.of_nat (length (slice_to count (sorted snd reverse t)))
      = Z.min count (Z.of_nat (length (keys t))).
Proof.
  intros Hk. exists (sorted snd reverse t).
  repeat split.
  - apply sorted_perm.
  - apply sorted_ordered.
  - intros c. apply sorted_stable.
  - now apply slice_to_nonneg.
  - rewrite slice_to_nonneg by exact Hk.
    apply firstn_StronglySorted, sorted_ordered.
  - rewrite slice_to_length by exact Hk.
    unfold keys. now rewrite sorted_length, length_map.
Qed.

(** C8: for a count [k >= 0], [get_most_frequent_numbers] returns the
    first [k] pairs of the table sorted by count, largest first, and
    [get_least_frequent_numbers] the first [k] pairs sorted smallest
    first; the length is the smaller of [k] and the number of keys; pairs
    with equal counts stay in the order of the table; an empty table
    gives empty rankings. *)
Theorem rank_frequent_spec (t : frequency_table) (k : Z) :
  0 <= k ->
  (exists full,
     Permutation full t /\
     StronglySorted (fun a b => snd b <= snd a) full /\
     (forall c, with_key snd c full = with_key snd c t) /\
     rank_most_frequent t k = firstn (Z.to_nat k) full /\
     StronglySorted (fun a b => snd b <= snd a) (rank_most_frequent t k) /\
     Z.of_nat (length (rank_most_frequent t k))
       = Z.min k (Z.of_nat (length (keys t)))) /\
  (exists full,
     Permutation full t /\
     StronglySorted (fun a b => snd a <= snd b) full /\
     (forall c, with_key snd c full = with_key snd c t) /\
     rank_least_frequent t k = firstn (Z.to_nat k) full /\
     StronglySorted (fun a b => snd a <= snd b) (rank_least_frequent t k) /\
     Z.of_nat (length (rank_least_frequent t k))
       = Z.min k (Z.of_nat (length (keys t)))) /\
  (t = [] -> rank_most_frequent t k = [] /\ rank_least_frequent t k = []).
Proof.
  intros Hk. split; [|split].
  - exact (rank_prefix true t k Hk).
  - exact (rank_prefix false t k Hk).
  - intros ->. unfold rank_most_frequent, rank_least_frequent.
    rewrite !slice_to_nonneg by exact Hk. simpl. now rewrite firstn_nil.
Qed.

Lemma rank_frequent_spec_witness :
  0 <= 3 /\
  rank_most_frequent sample_table 3 = [(7, 10); (2, 10); (13, 9)] /\
  rank_least_frequent sample_table 3 = [(20, 8); (13, 9); (1, 9)] /\
  Z.of_nat (length (rank_most_frequent sample_table 3))
    = Z.min 3 (Z.of_nat (length (keys sample_table))).
Proof.
  split; [lia|]. split; [reflexivity|]. split; [reflexivity|].
  destruct (rank_frequent_spec sample_table 3 ltac:(lia))
    as [[full [_ [_ [_ [_ [_ Hlen]]]]]] _].
  exact Hlen.
Defined.

(** A negative count is a slice counted from the end of the ranking. *)
Example rank_negative_count :
  rank_least_frequent sample_table (-1)
    = [(20, 8); (13, 9); (1, 9); (7, 10)].
Proof. reflexivity. Qed.

(** With the 2 x 6 = 12 most frequent of a table of the sample history's
    shape, the scenario of the specification. *)
Example rank_most_frequent_scenario :
  rank_most_frequent
    [(7, 10); (13, 9); (20, 8); (23, 7); (31, 6); (34, 5); (1, 0); (2, 0)] 3
  = [(7, 10); (13, 9); (20, 8)].
Proof. reflexivity. Qed.

(* ------------------------------------------------------------------ *)
(** ** The profile of a lottery *)

Lemma get_number_ranges_unknown (lottery_type : string) :
  lottery_type <> "lotto649" -> lottery_type <> "lottomax" ->
  get_number_ranges lottery_type = (1, 49).
Proof.
  intros H1 H2. unfold get_number_ranges.
  apply String.eqb_neq in H1, H2. now rewrite H1, H2.
Qed.

Lemma numbers_needed_unknown (lottery_type : string) :
  lottery_type <> "lotto649" -> numbers_needed_of lottery_type = 7.
Proof.
  intros H. unfold numbers_needed_of.
  apply String.eqb_neq in H. now rewrite H.
Qed.

(** C2: the two known lotteries have the profiles 1..49 with 6 numbers
    and 1..50 with 7 numbers.  For an identifier that is neither, here
    "powerball", the range is 1..49 but the entry has 7 numbers, not the
    6 of the default profile. *)
Theorem profile_of_unknown_lottery :
  (get_number_ranges "lotto649", numbers_needed_of "lotto649") = ((1, 49), 6) /\
  (get_number_ranges "lottomax", numbers_needed_of "lottomax") = ((1, 50), 7) /\
  (get_number_ranges "powerball", numbers_needed_of "powerball") = ((1, 49), 7) /\
  run (generate_frequency_based_entry powerball_no_draws "powerball" "hot")
      (rng_of (fun n => n)) = Ok [1; 2; 3; 4; 5; 6; 7].
Proof. repeat split. Qed.

(* ------------------------------------------------------------------ *)
(** ** Ranges and pools *)

Lemma py_range_In (lo hi x : Z) : In x (py_range lo hi) <-> lo <= x < hi.
Proof.
  unfold py_range. rewrite in_map_iff. split.
  - intros [i [<- Hi]]. apply in_seq in Hi. lia.
  - intros H. exists (Z.to_nat (x - lo)). split; [lia|].
    apply in_seq. lia.
Qed.

Lemma py_range_NoDup (lo hi : Z) : NoDup (py_range lo hi).
Proof.
  unfold py_range. apply Finite.Injective_map_NoDup; [|apply seq_NoDup].
  intros i j H. lia.
Qed.

Lemma py_range_length (lo hi : Z) :
  length (py_range lo hi) = Z.to_nat (hi - lo).
Proof. unfold py_range. now rewrite length_map, length_seq. Qed.

Lemma mem_In (n : Z) (l : list Z) : mem n l = true <-> In n l.
Proof.
  unfold mem. rewrite existsb_exists. split.
  - intros [x [Hx E]]. apply Z.eqb_eq in E. now subst.
  - intros H. exists n. split; [exact H | apply Z.eqb_refl].
Qed.

Lemma remaining_pool_In (min_num max_num : Z) (selected : list Z) (x : Z) :
  In x (remaining_pool_of min_num max_num selected) <->
  min_num <= x <= max_num /\ ~ In x selected.
Proof.
  unfold remaining_pool_of. rewrite filter_In, py_range_In, negb_true_iff.
  rewrite <- mem_In, not_true_iff_false. intuition lia.
Qed.

Lemma remaining_pool_NoDup (min_num max_num : Z) (selected : list Z) :
  NoDup (remaining_pool_of min_num max_num selected).
Proof. apply NoDup_filter, py_range_NoDup. Qed.

(** Leaving out the members of [selected] removes at most as many
    elements as [selected] has. *)
Lemma filter_not_mem_length (selected l : list Z) :
  NoDup l ->
  (length l <= length (filter (fun n => negb (mem n selected)) l)
               + length selected)%nat.
Proof.
  intros Hl.
  set (kept := filter (fun n => negb (mem n selected)) l).
  set (dropped := filter (fun n => mem n selected) l).
  assert (Hsplit : length l = (length dropped + length kept)%nat).
  { subst kept dropped. clear Hl. induction l as [|x l IH]; simpl; [reflexivity|].
    destruct (mem x selected); simpl; lia. }
  assert (Hd : (length dropped <= length selected)%nat).
  { apply NoDup_incl_length.
    - subst dropped. now apply NoDup_filter.
    - intros x Hx. subst dropped. apply filter_In in Hx.
      now apply mem_In. }
  lia.
Qed.

Lemma remaining_pool_nonempty (min_num max_num : Z) (selected : list Z) :
  Z.of_nat (length selected) < max_num + 1 - min_num ->
  remaining_pool_of min_num max_num selected <> [].
Proof.
  intros H E.
  pose proof (filter_not_mem_length selected (py_range min_num (max_num + 1))
                (py_range_NoDup _ _)) as Hlen.
  fold (remaining_pool_of min_num max_num selected) in Hlen.
  rewrite E, py_range_length in Hlen. simpl in Hlen. lia.
Qed.

(* ------------------------------------------------------------------ *)
(** ** [random.choice] and [random.sample] *)

Lemma choice_ok {A} (seq : list A) (d : A) (g : rng) :
  seq <> [] ->
  exists x g',
    choice seq g = Ok (x, g') /\
    x = nth (Nat.modulo (tape g (pos g)) (length seq)) seq d /\
    In x seq.
Proof.
  intros Hne. destruct seq as [|a seq]; [easy|].
  unfold choice, bind, randbelow, ret.
  set (j := Nat.modulo _ _).
  assert (Hj : (j < length (a :: seq))%nat).
  { subst j. apply Nat.mod_upper_bound. simpl. lia. }
  eexists _, _. split; [reflexivity|]. split.
  - apply nth_indep, Hj.
  - apply nth_In, Hj.
Qed.

Lemma list_set_length {A} (j : nat) (v : A) (l : list A) :
  length (list_set j v l) = length l.
Proof.
  revert j; induction l as [|x l IH]; intros [|j]; simpl; auto.
Qed.

(** One step of the pool of [random.sample]: the element that was
    taken and the new pool together are the old pool. *)
Lemma pool_step_perm {A} (pool : list A) (j : nat) (d : A) :
  (j < length pool)%nat ->
  Permutation pool
    (nth j pool d :: removelast (list_set j (last pool d) pool)).
Proof.
  revert j; induction pool as [|y pool IH]; intros j Hj; [simpl in Hj; lia|].
  destruct pool as [|z pool].
  - destruct j as [|j]; [|simpl in Hj; lia]. simpl. apply Permutation_refl.
  - destruct j as [|j].
    + change (last (y :: z :: pool) d) with (last (z :: pool) d).
      cbn [nth list_set].
      change (removelast (last (z :: pool) d :: z :: pool))
        with (last (z :: pool) d :: removelast (z :: pool)).
      apply perm_skip.
      rewrite (app_removelast_last d (l := z :: pool)) at 1 by discriminate.
      apply Permutation_sym, Permutation_cons_append.
    + change (last (y :: z :: pool) d) with (last (z :: pool) d).
      cbn [nth list_set].
      assert (Hne : exists a r, list_set j (last (z :: pool) d) (z :: pool) = a :: r).
      { destruct (list_set j (last (z :: pool) d) (z :: pool)) as [|a r] eqn:E.
        - apply (f_equal (@length A)) in E.
          rewrite list_set_length in E. discriminate.
        - eauto. }
      destruct Hne as [a [r Hr]].
      assert (Hrl : removelast (y :: list_set j (last (z :: pool) d) (z :: pool))
                    = y :: removelast (list_set j (last (z :: pool) d) (z :: pool))).
      { rewrite Hr. reflexivity. }
      rewrite Hrl.
      eapply perm_trans; [apply perm_skip, (IH j); simpl in *; lia|].
      apply perm_swap.
Qed.

Lemma sample_loop_ok {A} (k : nat) (pool : list A) (g : rng) :
  (k <= length pool)%nat -> NoDup pool ->
  exists l g',
    sample_loop k pool g = Ok (l, g') /\
    length l = k /\ NoDup l /\ incl l pool.
Proof.
  revert pool g; induction k as [|k IH]; intros pool g Hk Hnd.
  - exists [], g. repeat split; [constructor | intros x []].
  - destruct pool as [|d pool]; [simpl in Hk; lia|].
    cbn [sample_loop]. unfold bind at 1. unfold randbelow at 1.
    set (p := d :: pool) in *.
    set (j := Nat.modulo _ _).
    set (g1 := {| tape := tape g; pos := S (pos g) |}).
    assert (Hj : (j < length p)%nat).
    { subst j. apply Nat.mod_upper_bound. subst p. simpl. lia. }
    pose proof (pool_step_perm p j d Hj) as Hperm.
    set (p' := removelast (list_set j (last p d) p)) in *.
    assert (Hnd' : NoDup (nth j p d :: p')).
    { eapply Permutation_NoDup; eassumption. }
    assert (Hlen : length p = S (length p')).
    { apply Permutation_length in Hperm. exact Hperm. }
    destruct (IH p' g1) as [l [g' [Hl [Hlen' [Hndl Hincl]]]]].
    { lia. }
    { now inversion Hnd'. }
    exists (nth j p d :: l), g'.
    unfold bind, ret. rewrite Hl. repeat split.
    + simpl. now rewrite Hlen'.
    + constructor; [|exact Hndl].
      intros Hin. apply Hincl in Hin. now inversion Hnd'.
    + intros x [<-|Hx].
      * apply nth_In, Hj.
      * apply (Permutation_in _ (Permutation_sym Hperm)).
        right. now apply Hincl.
Qed.

Lemma sample_ok {A} (population : list A) (k : Z) (g : rng) :
  0 <= k <= Z.of_nat (length population) -> NoDup population ->
  exists l g',
    sample population k g = Ok (l, g') /\
    Z.of_nat (length l) = k /\ NoDup l /\ incl l population.
Proof.
  intros Hk Hnd. unfold sample.
  assert (((k <? 0) || (Z.of_nat (length population) <? k)) = false) as ->
    by lia.
  destruct (sample_loop_ok (Z.to_nat k) population g ltac:(lia) Hnd)
    as [l [g' [Hl [Hlen [Hndl Hincl]]]]].
  exists l, g'. repeat split; auto. lia.
Qed.

(* ------------------------------------------------------------------ *)
(** ** Which samples can be drawn *)

Lemma sorted_of_sorted (l : list Z) :
  StronglySorted Z.le l -> sorted id false l = l.
Proof.
  induction 1 as [|x l Hl IH Hx]; simpl; [reflexivity|].
  rewrite IH. destruct l as [|y l]; [reflexivity|]. simpl.
  inversion Hx as [|? ? Hxy _]; subst. unfold id.
  now apply Z.leb_le in Hxy as ->.
Qed.

Lemma sample_loop_step {A} (k : nat) (pool : list A) (d : A) (g : rng) :
  pool <> [] ->
  sample_loop (S k) pool g =
  match sample_loop k
          (removelast
             (list_set (Nat.modulo (tape g (pos g)) (length pool))
                (last pool d) pool))
          {| tape := tape g; pos := S (pos g) |} with
  | Ok (rest, g') =>
      Ok (nth (Nat.modulo (tape g (pos g)) (length pool)) pool d :: rest, g')
  | Raise e => Raise e
  end.
Proof.
  intros Hne. destruct pool as [|a pool]; [easy|].
  assert (Hj : (Nat.modulo (tape g (pos g)) (length (a :: pool))
                < length (a :: pool))%nat)
    by (apply Nat.mod_upper_bound; simpl; lia).
  cbn [sample_loop]. unfold bind, randbelow, ret.
  rewrite (nth_indep _ a d Hj).
  assert (Hlast : last (a :: pool) a = last (a :: pool) d).
  { clear. revert a. induction pool as [|b pool IH]; intros a; [reflexivity|].
    change (last (a :: b :: pool) a) with (last (b :: pool) a).
    change (last (a :: b :: pool) d) with (last (b :: pool) d).
    clear IH. revert b. induction pool as [|c pool IH]; intros b; [reflexivity|].
    change (last (b :: c :: pool) a) with (last (c :: pool) a).
    change (last (b :: c :: pool) d) with (last (c :: pool) d).
    apply IH. }
  rewrite Hlast.
  destruct (sample_loop k _ _) as [[rest g']|e]; reflexivity.
Qed.

(** Every arrangement of [k] distinct elements of the pool is drawn from
    some sequence of indices. *)
Lemma sample_loop_reaches {A} (target : list A) :
  forall (pool : list A),
  NoDup pool -> NoDup target -> incl target pool ->
  exists js, length js = length target /\
    forall g,
      (forall i, (i < length target)%nat ->
         tape g (pos g + i) = nth i js 0%nat) ->
      exists g', sample_loop (length target) pool g = Ok (target, g').
Proof.
  induction target as [|x tl IH]; intros pool Hp Ht Hincl.
  - exists []. split; [reflexivity|]. intros g _. now exists g.
  - assert (Hx : In x pool) by (apply Hincl; now left).
    destruct pool as [|d pool0]; [easy|].
    set (pool := d :: pool0) in *.
    destruct (In_nth pool x d Hx) as [j [Hj Hnth]].
    pose proof (pool_step_perm pool j d Hj) as Hperm. rewrite Hnth in Hperm.
    set (pool' := removelast (list_set j (last pool d) pool)) in *.
    assert (Hp' : NoDup (x :: pool')) by (eapply Permutation_NoDup; eassumption).
    apply NoDup_cons_iff in Ht. destruct Ht as [Hxtl Htl].
    destruct (IH pool') as [js [Hlen Hjs]].
    { now inversion Hp'. }
    { exact Htl. }
    { intros y Hy.
      assert (Hy' : In y (x :: pool')).
      { apply (Permutation_in _ Hperm), Hincl. now right. }
      destruct Hy' as [<-|Hy']; [contradiction | exact Hy']. }
    exists (j :: js). split; [simpl; now rewrite Hlen|].
    intros g Hg. cbn [length].
    rewrite (sample_loop_step _ pool d g) by discriminate.
    pose proof (Hg 0%nat ltac:(simpl; lia)) as H0.
    rewrite Nat.add_0_r in H0. cbn [nth] in H0.
    rewrite H0, (Nat.mod_small j) by exact Hj. rewrite Hnth.
    fold pool'.
    destruct (Hjs {| tape := tape g; pos := S (pos g) |}) as [g' Hg'].
    { intros i Hi. cbn [tape pos].
      specialize (Hg (S i) ltac:(simpl; lia)).
      rewrite Nat.add_succ_r in Hg. exact Hg. }
    exists g'. now rewrite Hg'.
Qed.

(** Two runs that draw the same sample drew the same indices. *)
Lemma sample_loop_injective {A} (k : nat) :
  forall (pool l : list A) (g1 g2 g1' g2' : rng),
  NoDup pool -> (k <= length pool)%nat ->
  sample_loop k pool g1 = Ok (l, g1') ->
  sample_loop k pool g2 = Ok (l, g2') ->
  forall i, (i < k)%nat ->
    Nat.modulo (tape g1 (pos g1 + i)) (length pool - i) =
    Nat.modulo (tape g2 (pos g2 + i)) (length pool - i).
Proof.
  induction k as [|k IH]; intros pool l g1 g2 g1' g2' Hp Hk H1 H2 i Hi; [lia|].
  destruct pool as [|d pool0]; [simpl in Hk; lia|].
  set (pool := d :: pool0) in *.
  rewrite (sample_loop_step _ pool d) in H1, H2 by discriminate.
  set (j1 := Nat.modulo (tape g1 (pos g1)) (length pool)) in *.
  set (j2 := Nat.modulo (tape g2 (pos g2)) (length pool)) in *.
  assert (Hj1 : (j1 < length pool)%nat)
    by (apply Nat.mod_upper_bound; subst pool; simpl; lia).
  assert (Hj2 : (j2 < length pool)%nat)
    by (apply Nat.mod_upper_bound; subst pool; simpl; lia).
  destruct (sample_loop k (removelast (list_set j1 (last pool d) pool)) _)
    as [[r1 s1]|] eqn:E1; [|discriminate].
  destruct (sample_loop k (removelast (list_set j2 (last pool d) pool)) _)
    as [[r2 s2]|] eqn:E2; [|discriminate].
  injection H1 as <- <-. injection H2 as Hhead Hrest Hs.
  assert (Hj : j1 = j2).
  { apply (proj1 (NoDup_nth pool d) Hp); auto. }
  destruct i as [|i].
  - rewrite !Nat.add_0_r, Nat.sub_0_r. exact Hj.
  - rewrite <- Hj in E2. subst r2.
    pose proof (pool_step_perm pool j1 d Hj1) as Hperm.
    set (pool' := removelast (list_set j1 (last pool d) pool)) in *.
    assert (Hlen : length pool = S (length pool'))
      by (apply Permutation_length in Hperm; exact Hperm).
    assert (Hp' : NoDup pool').
    { apply (Permutation_NoDup Hperm) in Hp. now inversion Hp. }
    pose proof (IH pool' r1 _ _ _ _ Hp' ltac:(lia) E1 E2 i ltac:(lia)) as Hi'.
    cbn [tape pos] in Hi'.
    rewrite !Nat.add_succ_r, Hlen. exact Hi'.
Qed.

(* ------------------------------------------------------------------ *)
(** ** The profile in numbers *)

Lemma profile_cases (lottery_type : string) :
  (get_number_ranges lottery_type = (1, 49) \/
   get_number_ranges lottery_type = (1, 50)) /\
  (numbers_needed_of lottery_type = 6 \/ numbers_needed_of lottery_type = 7).
Proof.
  unfold get_number_ranges, numbers_needed_of.
  destruct (String.eqb lottery_type "lotto649");
    destruct (String.eqb lottery_type "lottomax"); auto.
Qed.

Lemma profile_bounds (lottery_type : string) :
  fst (get_number_ranges lottery_type) = 1 /\
  49 <= snd (get_number_ranges lottery_type) <= 50 /\
  6 <= numbers_needed_of lottery_type <= 7.
Proof.
  destruct (profile_cases lottery_type) as [[-> | ->] [-> | ->]]; simpl; lia.
Qed.

(* ------------------------------------------------------------------ *)
(** ** The filling loop of the balanced strategy *)

Lemma fill_remaining_ok (min_num max_num numbers_needed : Z) :
  numbers_needed <= max_num + 1 - min_num ->
  forall (fuel : nat) (selected : list Z) (g : rng),
  (Z.to_nat numbers_needed - length selected <= fuel)%nat ->
  exists added g',
    fill_remaining fuel min_num max_num numbers_needed selected g
      = Ok (selected ++ added, g') /\
    Z.of_nat (length (selected ++ added))
      = Z.max numbers_needed (Z.of_nat (length selected)) /\
    NoDup added /\
    (forall x, In x added -> min_num <= x <= max_num /\ ~ In x selected).
Proof.
  intros Hrange. induction fuel as [|fuel IH]; intros selected g Hfuel.
  - exists [], g. cbn [fill_remaining].
    assert ((Z.of_nat (length selected) <? numbers_needed) = false) as -> by lia.
    rewrite app_nil_r.
    split; [reflexivity|]. split; [lia|]. split; [constructor | intros x []].
  - cbn [fill_remaining].
    destruct (Z.of_nat (length selected) <? numbers_needed) eqn:E.
    + destruct (choice_ok (remaining_pool_of min_num max_num selected) 0 g)
        as [x [g1 [Hc [_ Hx]]]].
      { apply remaining_pool_nonempty. lia. }
      apply remaining_pool_In in Hx. destruct Hx as [Hxr Hxs].
      destruct (IH (selected ++ [x]) g1) as [added [g' [Hf [Hlen [Hnd Hin]]]]].
      { rewrite length_app. simpl. lia. }
      exists (x :: added), g'.
      unfold bind. rewrite Hc, Hf.
      rewrite <- app_assoc in *. simpl in *.
      split; [reflexivity|]. split; [|split].
      * rewrite Hlen, length_app. simpl. lia.
      * constructor; [|exact Hnd].
        intros Hxa. apply Hin in Hxa. destruct Hxa as [_ Hxa].
        apply Hxa, in_or_app. right. now left.
      * intros y [<-|Hy]; [now split|].
        apply Hin in Hy. destruct Hy as [Hyr Hys]. split; [exact Hyr|].
        intros Hs. apply Hys, in_or_app. now left.
    + exists [], g. rewrite app_nil_r.
      split; [reflexivity|]. split; [lia|]. split; [constructor | intros x []].
Qed.

(* ------------------------------------------------------------------ *)
(** ** [generate_frequency_based_entry], branch by branch *)

Section Generate.

Variable db : database.
Variable lottery_type : string.

Local Abbreviation min_num := (fst (get_number_ranges lottery_type)) (only parsing).
Local Abbreviation max_num := (snd (get_number_ranges lottery_type)) (only parsing).
Local Abbreviation numbers_needed := (numbers_needed_of lottery_type) (only parsing).

(** One call, once the table has been read. *)
Lemma generate_entry_at_step (depth : nat) (strategy : string)
  (f : frequency_table) (g : rng) :
  calculate_frequency db lottery_type = Ok f ->
  generate_entry_at db (S depth) lottery_type strategy g =
  match f with
  | [] => random_entry lottery_type g
  | _ :: _ =>
      if String.eqb strategy "hot" then
        (x <- choice (pool_of lottery_type (hot_selection lottery_type f)) ;;
         ret (sorted id false (hot_selection lottery_type f ++ [x]))) g
      else if String.eqb strategy "cold" then
        Ok (sorted id false (cold_selection lottery_type f), g)
      else if String.eqb strategy "balanced" then
        (selected <- fill_remaining (Z.to_nat numbers_needed) min_num max_num
                       numbers_needed (balanced_picks lottery_type f) ;;
         ret (sorted id false selected)) g
      else if String.eqb strategy "random" then random_entry lottery_type g
      else generate_entry_at db depth lottery_type "balanced" g
  end.
Proof.
  intros Hf.
  cbn [generate_entry_at].
  unfold random_entry, pool_of, hot_selection, cold_selection, balanced_picks,
    get_most_frequent_numbers, get_least_frequent_numbers.
  destruct (get_number_ranges lottery_type) as [mn mx]. cbn [fst snd].
  unfold bind at 1. unfold lift at 1. rewrite Hf.
  destruct f as [|p f']; [reflexivity|].
  destruct (String.eqb strategy "hot"); [reflexivity|].
  destruct (String.eqb strategy "cold"); [reflexivity|].
  destruct (String.eqb strategy "balanced"); [reflexivity|].
  destruct (String.eqb strategy "random"); reflexivity.
Qed.

Lemma generate_entry_at_raise (depth : nat) (strategy : string)
  (e : exn) (g : rng) :
  calculate_frequency db lottery_type = Raise e ->
  generate_entry_at db (S depth) lottery_type strategy g = Raise e.
Proof.
  intros Hf. cbn [generate_entry_at].
  destruct (get_number_ranges lottery_type) as [mn mx].
  unfold bind at 1. unfold lift at 1. now rewrite Hf.
Qed.

(** The balanced branch never calls the function again. *)
Lemma generate_balanced_depth (d d' : nat) (g : rng) :
  generate_entry_at db (S d) lottery_type "balanced" g =
  generate_entry_at db (S d') lottery_type "balanced" g.
Proof.
  destruct (calculate_frequency db lottery_type) as [f|e] eqn:Hf.
  - rewrite !(generate_entry_at_step _ _ f g Hf). reflexivity.
  - rewrite !(generate_entry_at_raise _ _ e g Hf). reflexivity.
Qed.

(** An unrecognised strategy is the balanced one. *)
Lemma generate_unknown_is_balanced (strategy : string) (g : rng) :
  known_strategy strategy = false ->
  generate_frequency_based_entry db lottery_type strategy g =
  generate_frequency_based_entry db lottery_type "balanced" g.
Proof.
  intros Hs. unfold known_strategy in Hs.
  apply orb_false_iff in Hs. destruct Hs as [Hs Hr].
  apply orb_false_iff in Hs. destruct Hs as [Hs Hb].
  apply orb_false_iff in Hs. destruct Hs as [Hh Hc].
  unfold generate_frequency_based_entry.
  destruct (calculate_frequency db lottery_type) as [f|e] eqn:Hf.
  - rewrite !(generate_entry_at_step _ _ f g Hf).
    destruct f as [|p f']; [reflexivity|].
    rewrite Hh, Hc, Hb, Hr. reflexivity.
  - rewrite !(generate_entry_at_raise _ _ e g Hf). reflexivity.
Qed.

(** The range of the lottery has more numbers than an entry. *)
Lemma range_larger_than_entry :
  numbers_needed <= max_num + 1 - min_num /\
  0 <= numbers_needed <= Z.of_nat (length (py_range min_num (max_num + 1))).
Proof.
  rewrite py_range_length.
  destruct (profile_bounds lottery_type) as [-> [H1 H2]]. lia.
Qed.

Lemma sorted_valid (l : list Z) :
  Z.of_nat (length l) = numbers_needed -> NoDup l ->
  in_range min_num max_num l ->
  valid_entry lottery_type (sorted id false l).
Proof.
  intros Hlen Hnd Hr. unfold valid_entry. repeat split.
  - now rewrite sorted_length.
  - now apply sorted_NoDup.
  - apply sorted_id_sorted.
  - unfold in_range in *. rewrite Forall_forall in *.
    intros x Hx. apply Hr. now apply sorted_In in Hx.
Qed.

(** The fallback and the random strategy give a valid entry. *)
Lemma random_entry_valid (g : rng) :
  exists l g',
    sample (py_range min_num (max_num + 1)) numbers_needed g = Ok (l, g') /\
    random_entry lottery_type g = Ok (sorted id false l, g') /\
    valid_entry lottery_type (sorted id false l).
Proof.
  destruct range_larger_than_entry as [_ Hk].
  destruct (sample_ok (py_range min_num (max_num + 1)) numbers_needed g Hk
              (py_range_NoDup _ _)) as [l [g' [Hs [Hlen [Hnd Hincl]]]]].
  exists l, g'. split; [exact Hs|]. split.
  - unfold random_entry, bind, ret.
    now rewrite Hs.
  - apply sorted_valid; auto.
    apply Forall_forall. intros x Hx. apply Hincl, py_range_In in Hx. lia.
Qed.

End Generate.

(* ------------------------------------------------------------------ *)
(** ** The numbers a strategy takes from the table *)

Section Picks.

Variable f : frequency_table.
Hypothesis f_keys : NoDup (keys f).

Lemma ranked_keys_In (reverse : bool) (c c' : Z) (x : Z) :
  In x (map fst (slice_to c' (slice_to c (sorted snd reverse f)))) ->
  In x (keys f).
Proof.
  intros H. apply in_map_iff in H. destruct H as [p [<- Hp]].
  apply in_map. apply slice_to_incl, slice_to_incl in Hp.
  now apply sorted_In in Hp.
Qed.

Lemma ranked_keys_NoDup (reverse : bool) (c c' : Z) :
  NoDup (map fst (slice_to c' (slice_to c (sorted snd reverse f)))).
Proof.
  rewrite <- !slice_to_map. apply slice_to_NoDup, slice_to_NoDup.
  eapply Permutation_NoDup; [|exact f_keys].
  apply Permutation_sym, sorted_map_fst_perm.
Qed.

Lemma ranked_keys_length (reverse : bool) (c c' : Z) :
  0 <= c' <= c ->
  Z.of_nat (length (map fst (slice_to c' (slice_to c (sorted snd reverse f)))))
    = Z.min c' (Z.of_nat (length (keys f))).
Proof.
  intros H. rewrite length_map, !slice_to_length by lia.
  unfold keys. rewrite sorted_length, length_map. lia.
Qed.

Variable lottery_type : string.

Lemma hot_selection_eq :
  hot_selection lottery_type f =
  map fst (slice_to (numbers_needed_of lottery_type - 1)
             (slice_to (numbers_needed_of lottery_type * 2)
                (sorted snd true f))).
Proof. unfold hot_selection, rank_most_frequent. apply slice_to_map. Qed.

Lemma cold_selection_eq :
  cold_selection lottery_type f =
  map fst (slice_to (numbers_needed_of lottery_type)
             (slice_to (numbers_needed_of lottery_type * 2)
                (sorted snd false f))).
Proof. unfold cold_selection, rank_least_frequent. apply slice_to_map. Qed.

Lemma balanced_picks_In (x : Z) :
  In x (balanced_picks lottery_type f) -> In x (keys f).
Proof.
  unfold balanced_picks, rank_most_frequent, rank_least_frequent.
  intros H. apply in_app_or in H. destruct H as [H|H];
    eapply ranked_keys_In; exact H.
Qed.

Lemma balanced_picks_length :
  Z.of_nat (length (balanced_picks lottery_type f))
    <= numbers_needed_of lottery_type.
Proof.
  unfold balanced_picks, rank_most_frequent, rank_least_frequent.
  destruct (profile_bounds lottery_type) as [_ [_ Hn]].
  assert (Hh : 0 <= numbers_needed_of lottery_type / 2
                 <= numbers_needed_of lottery_type).
  { split; [apply Z.div_pos; lia | apply Z.div_le_upper_bound; lia]. }
  rewrite length_app, Nat2Z.inj_add, !ranked_keys_length by exact Hh.
  assert (2 * (numbers_needed_of lottery_type / 2)
            <= numbers_needed_of lottery_type)
    by (apply Z.mul_div_le; lia).
  lia.
Qed.

End Picks.

(* ------------------------------------------------------------------ *)
(** ** What [generate_frequency_based_entry] returns *)

Section Entries.

Variable db : database.
Variable lottery_type : string.
Variable f : frequency_table.
Hypothesis table_read : calculate_frequency db lottery_type = Ok f.

Local Abbreviation min_num := (fst (get_number_ranges lottery_type)) (only parsing).
Local Abbreviation max_num := (snd (get_number_ranges lottery_type)) (only parsing).
Local Abbreviation numbers_needed := (numbers_needed_of lottery_type) (only parsing).

Lemma table_keys_NoDup : NoDup (keys f).
Proof.
  destruct (calculate_frequency_inv _ _ _ table_read) as [? [ds [_ [_ [_ ->]]]]].
  apply count_draws_NoDup.
Qed.

Lemma hot_selection_length :
  Z.of_nat (length (hot_selection lottery_type f))
    = Z.min (numbers_needed - 1) (Z.of_nat (length (keys f))).
Proof.
  rewrite hot_selection_eq. apply ranked_keys_length.
  destruct (profile_bounds lottery_type) as [_ [_ H]]. lia.
Qed.

Lemma cold_selection_length :
  Z.of_nat (length (cold_selection lottery_type f))
    = Z.min numbers_needed (Z.of_nat (length (keys f))).
Proof.
  rewrite cold_selection_eq. apply ranked_keys_length.
  destruct (profile_bounds lottery_type) as [_ [_ H]]. lia.
Qed.

Lemma in_range_incl (l : list Z) :
  (forall x, In x l -> In x (keys f)) ->
  in_range min_num max_num (keys f) -> in_range min_num max_num l.
Proof.
  intros Hincl Hr. unfold in_range in *. rewrite Forall_forall in *. auto.
Qed.

(** The hot strategy on a non-empty table. *)
Lemma hot_entry_shape (g : rng) :
  f <> [] ->
  let selected := hot_selection lottery_type f in
  let pool := pool_of lottery_type selected in
  exists x g',
    generate_frequency_based_entry db lottery_type "hot" g
      = Ok (sorted id false (selected ++ [x]), g') /\
    x = nth (Nat.modulo (tape g (pos g)) (length pool)) pool 0 /\
    In x pool.
Proof.
  intros Hne selected pool.
  destruct (choice_ok pool 0 g) as [x [g' [Hc [Hx Hin]]]].
  { apply remaining_pool_nonempty.
    pose proof hot_selection_length as Hl.
    destruct (range_larger_than_entry lottery_type) as [Hr _].
    fold selected in Hl. lia. }
  exists x, g'. split; [|now split].
  unfold generate_frequency_based_entry.
  rewrite (generate_entry_at_step _ _ _ _ f g table_read).
  destruct f as [|p f']; [easy|]. cbn [String.eqb Ascii.eqb Bool.eqb].
  unfold bind, ret. fold selected pool. now rewrite Hc.
Qed.

Lemma cold_entry_shape (g : rng) :
  f <> [] ->
  generate_frequency_based_entry db lottery_type "cold" g
    = Ok (sorted id false (cold_selection lottery_type f), g).
Proof.
  intros Hne. unfold generate_frequency_based_entry.
  rewrite (generate_entry_at_step _ _ _ _ f g table_read).
  destruct f as [|p f']; [easy|]. reflexivity.
Qed.

Lemma balanced_entry_shape (g : rng) :
  f <> [] ->
  exists added g',
    generate_frequency_based_entry db lottery_type "balanced" g
      = Ok (sorted id false (balanced_picks lottery_type f ++ added), g') /\
    Z.of_nat (length (balanced_picks lottery_type f ++ added)) = numbers_needed /\
    NoDup added /\
    (forall x, In x added ->
       min_num <= x <= max_num /\ ~ In x (balanced_picks lottery_type f)).
Proof.
  intros Hne.
  destruct (range_larger_than_entry lottery_type) as [Hr _].
  destruct (fill_remaining_ok min_num max_num numbers_needed Hr
              (Z.to_nat numbers_needed) (balanced_picks lottery_type f) g)
    as [added [g' [Hf [Hlen [Hnd Hin]]]]]; [lia|].
  exists added, g'. split; [|split; [|now split]].
  - unfold generate_frequency_based_entry.
    rewrite (generate_entry_at_step _ _ _ _ f g table_read).
    destruct f as [|p f']; [easy|]. cbn [String.eqb Ascii.eqb Bool.eqb].
    unfold bind, ret. now rewrite Hf.
  - rewrite Hlen. pose proof (balanced_picks_length f lottery_type).
    lia.
Qed.

Lemma random_strategy_shape (g : rng) :
  generate_frequency_based_entry db lottery_type "random" g
    = random_entry lottery_type g.
Proof.
  unfold generate_frequency_based_entry.
  rewrite (generate_entry_at_step _ _ _ _ f g table_read).
  destruct f; reflexivity.
Qed.

Lemma empty_table_shape (strategy : string) (g : rng) :
  f = [] ->
  generate_frequency_based_entry db lottery_type strategy g
    = random_entry lottery_type g.
Proof.
  intros Hf. unfold generate_frequency_based_entry.
  rewrite (generate_entry_at_step _ _ _ _ f g table_read).
  now rewrite Hf.
Qed.

Lemma enough_for_unknown (strategy : string) :
  known_strategy strategy = false ->
  enough_for lottery_type strategy f = enough_for lottery_type "balanced" f.
Proof.
  unfold known_strategy, enough_for. intros H.
  destruct (String.eqb strategy "hot"); [discriminate|].
  destruct (String.eqb strategy "cold"); [discriminate|].
  destruct (String.eqb strategy "balanced"); [discriminate|].
  destruct (String.eqb strategy "random"); [discriminate|].
  reflexivity.
Qed.

(** Every strategy returns a sorted list; its numbers are in range when
    the keys of the table are; it is an entry of the right length with
    distinct numbers when the table gives enough of them. *)
Lemma generate_entry_shape (strategy : string) (g : rng) :
  exists l g',
    generate_frequency_based_entry db lottery_type strategy g
      = Ok (sorted id false l, g') /\
    (in_range min_num max_num (keys f) -> in_range min_num max_num l) /\
    (f = [] \/ enough_for lottery_type strategy f ->
     Z.of_nat (length l) = numbers_needed /\ NoDup l).
Proof.
  pose proof table_keys_NoDup as Hkeys.
  assert (Hrandom : exists l g',
    random_entry lottery_type g = Ok (sorted id false l, g') /\
    in_range min_num max_num l /\
    Z.of_nat (length l) = numbers_needed /\ NoDup l).
  { destruct (range_larger_than_entry lottery_type) as [_ Hk].
    destruct (sample_ok _ _ g Hk (py_range_NoDup _ _))
      as [l [g' [Hs [Hlen [Hnd Hincl]]]]].
    exists l, g'. split; [|split; [|now split]].
    - unfold random_entry, bind, ret. now rewrite Hs.
    - apply Forall_forall. intros x Hx. apply Hincl, py_range_In in Hx.
      lia. }
  assert (Hcase : f = [] \/ f <> []).
  { clear. destruct f; [now left | now right]. }
  destruct Hcase as [Ef|Hne].
  { destruct Hrandom as [l [g' [Hr [Hin Hv]]]]. exists l, g'.
    rewrite (empty_table_shape strategy g Ef). auto. }
  assert (Hbalanced : exists l g',
    generate_frequency_based_entry db lottery_type "balanced" g
      = Ok (sorted id false l, g') /\
    (in_range min_num max_num (keys f) -> in_range min_num max_num l) /\
    (f = [] \/ enough_for lottery_type "balanced" f ->
     Z.of_nat (length l) = numbers_needed /\ NoDup l)).
  { destruct (balanced_entry_shape g Hne) as [added [g' [Hb [Hlen [Hnd Hin]]]]].
    exists (balanced_picks lottery_type f ++ added), g'.
    split; [exact Hb|]. split.
    - intros Hr. apply Forall_forall. intros x Hx.
      apply in_app_or in Hx. destruct Hx as [Hx|Hx].
      + apply balanced_picks_In in Hx.
        unfold in_range in Hr. rewrite Forall_forall in Hr. now apply Hr.
      + now apply Hin.
    - intros [He|He]; [easy|]. split; [exact Hlen|].
      unfold enough_for in He. cbn [String.eqb Ascii.eqb Bool.eqb] in He.
      apply NoDup_app; [exact He | exact Hnd |].
      intros x Hx Hx'. now apply Hin in Hx'. }
  destruct (known_strategy strategy) eqn:Hk.
  2:{ rewrite (generate_unknown_is_balanced db lottery_type strategy g Hk).
      rewrite (enough_for_unknown strategy Hk). exact Hbalanced. }
  unfold known_strategy in Hk.
  destruct (String.eqb strategy "hot") eqn:Hh.
  { apply String.eqb_eq in Hh; subst strategy.
    destruct (hot_entry_shape g Hne) as [x [g' [Hg [_ Hx]]]].
    apply remaining_pool_In in Hx. destruct Hx as [Hxr Hxs].
    exists (hot_selection lottery_type f ++ [x]), g'.
    split; [exact Hg|]. split.
    - intros Hr. apply Forall_forall. intros y Hy.
      apply in_app_or in Hy. destruct Hy as [Hy|[<-|[]]]; [|exact Hxr].
      rewrite hot_selection_eq in Hy. apply (ranked_keys_In f) in Hy.
      unfold in_range in Hr. rewrite Forall_forall in Hr. now apply Hr.
    - intros [He|He]; [easy|].
      unfold enough_for in He. cbn [String.eqb Ascii.eqb Bool.eqb] in He.
      split.
      + rewrite length_app, Nat2Z.inj_add, hot_selection_length.
        simpl. lia.
      + apply NoDup_app.
        * rewrite hot_selection_eq. now apply ranked_keys_NoDup.
        * repeat constructor. intros [].
        * intros y Hy [<-|[]]. now apply Hxs. }
  destruct (String.eqb strategy "cold") eqn:Hc.
  { apply String.eqb_eq in Hc; subst strategy.
    exists (cold_selection lottery_type f), g.
    split; [now apply cold_entry_shape|]. split.
    - intros Hr. apply Forall_forall. intros y Hy.
      rewrite cold_selection_eq in Hy. apply (ranked_keys_In f) in Hy.
      unfold in_range in Hr. rewrite Forall_forall in Hr. now apply Hr.
    - intros [He|He]; [easy|].
      unfold enough_for in He. cbn [String.eqb Ascii.eqb Bool.eqb] in He.
      split.
      + rewrite cold_selection_length. lia.
      + rewrite cold_selection_eq. now apply ranked_keys_NoDup. }
  destruct (String.eqb strategy "balanced") eqn:Hb.
  { apply String.eqb_eq in Hb; subst strategy. exact Hbalanced. }
  destruct (String.eqb strategy "random") eqn:Hr; [|discriminate].
  apply String.eqb_eq in Hr; subst strategy.
  destruct Hrandom as [l [g' [Hg [Hin Hv]]]]. exists l, g'.
  rewrite random_strategy_shape. auto.
Qed.

End Entries.

(* ------------------------------------------------------------------ *)
(** ** Entries *)

(** C1, as the code has it: on a non-empty table whose keys lie in the
    range of the lottery, every strategy returns a list sorted ascending
    with all its numbers in the range; the list has [numbers_needed]
    distinct numbers under the random strategy, under the hot strategy
    when the table has at least [numbers_needed - 1] keys, under the
    cold strategy when it has at least [numbers_needed] keys, and under
    the balanced strategy, or an unrecognised one, when the numbers taken
    from the two rankings are distinct. *)
Theorem generate_entry_valid
  (db : database) (lottery_type strategy : string)
  (f : frequency_table) (g : rng) :
  calculate_frequency db lottery_type = Ok f ->
  f <> [] ->
  in_range (fst (get_number_ranges lottery_type))
           (snd (get_number_ranges lottery_type)) (keys f) ->
  exists e g',
    generate_frequency_based_entry db lottery_type strategy g = Ok (e, g') /\
    StronglySorted Z.le e /\
    in_range (fst (get_number_ranges lottery_type))
             (snd (get_number_ranges lottery_type)) e /\
    (enough_for lottery_type strategy f -> valid_entry lottery_type e).
Proof.
  intros Hf Hne Hr.
  destruct (generate_entry_shape db lottery_type f Hf strategy g)
    as [l [g' [Hg [Hin Hv]]]].
  exists (sorted id false l), g'. split; [exact Hg|].
  specialize (Hin Hr).
  assert (Hs : in_range (fst (get_number_ranges lottery_type))
                 (snd (get_number_ranges lottery_type)) (sorted id false l)).
  { unfold in_range in *. rewrite Forall_forall in *.
    intros x Hx. apply Hin. now apply sorted_In in Hx. }
  split; [apply sorted_id_sorted|]. split; [exact Hs|].
  intros He. destruct (Hv (or_intror He)) as [Hlen Hnd].
  now apply sorted_valid.
Qed.

Lemma generate_entry_valid_witness :
  calculate_frequency lotto649_single_draw "lotto649"
    = Ok [(1, 1); (2, 1); (3, 1); (4, 1); (5, 1); (6, 1)] /\
  exists e g',
    generate_frequency_based_entry lotto649_single_draw "lotto649" "hot"
      (rng_of (fun n => n)) = Ok (e, g') /\
    StronglySorted Z.le e /\
    in_range 1 49 e /\
    (enough_for "lotto649" "hot"
       [(1, 1); (2, 1); (3, 1); (4, 1); (5, 1); (6, 1)] ->
     valid_entry "lotto649" e).
Proof.
  split; [reflexivity|].
  apply (generate_entry_valid lotto649_single_draw "lotto649" "hot"
           [(1, 1); (2, 1); (3, 1); (4, 1); (5, 1); (6, 1)]
           (rng_of (fun n => n))).
  - reflexivity.
  - discriminate.
  - repeat constructor; simpl; lia.
Defined.

(** C1, as stated, fails: from the stored draw "3,99" the cold strategy
    returns two numbers, one of them outside 1..49. *)
Lemma cold_entry_not_valid :
  calculate_frequency lotto649_out_of_range "lotto649"
    = Ok [(3, 1); (99, 1)] /\
  run (generate_frequency_based_entry lotto649_out_of_range "lotto649" "cold")
      (rng_of (fun n => n)) = Ok [3; 99] /\
  ~ valid_entry "lotto649" [3; 99].
Proof.
  split; [reflexivity|]. split; [reflexivity|].
  intros [Hlen _]. discriminate Hlen.
Qed.

(** The balanced strategy takes the same numbers from both rankings when
    the counts tie: one stored draw of six numbers gives three numbers,
    each twice, whatever the source of randomness. *)
Lemma balanced_entry_repeats (g : rng) :
  run (generate_frequency_based_entry lotto649_single_draw "lotto649"
         "balanced") g = Ok [1; 1; 2; 2; 3; 3] /\
  ~ NoDup [1; 1; 2; 2; 3; 3].
Proof.
  split; [reflexivity|].
  intros H. inversion H as [|? ? Hn _]; subst. apply Hn. now left.
Qed.

(** C5: on an empty table every strategy, recognised or not, is the
    random fallback: the sorted result of [random.sample] on the range
    of the lottery, [numbers_needed] distinct numbers of that range; and
    every entry of the lottery is the result for some source of
    randomness. *)
Theorem generate_entry_empty_table
  (db : database) (lottery_type strategy : string) (g : rng) :
  calculate_frequency db lottery_type = Ok [] ->
  generate_frequency_based_entry db lottery_type strategy g
    = random_entry lottery_type g /\
  (exists l g',
     sample (py_range (fst (get_number_ranges lottery_type))
                      (snd (get_number_ranges lottery_type) + 1))
            (numbers_needed_of lottery_type) g = Ok (l, g') /\
     generate_frequency_based_entry db lottery_type strategy g
       = Ok (sorted id false l, g') /\
     valid_entry lottery_type (sorted id false l)) /\
  (forall e, valid_entry lottery_type e ->
     exists t,
       run (generate_frequency_based_entry db lottery_type strategy)
           (rng_of t) = Ok e).
Proof.
  intros Hf.
  pose proof (empty_table_shape db lottery_type [] Hf strategy) as He.
  split; [now apply He|]. split.
  - destruct (random_entry_valid lottery_type g) as [l [g' [Hs [Hr Hv]]]].
    exists l, g'. rewrite He by reflexivity. auto.
  - intros e [Hlen [Hnd [Hsorted Hrange]]].
    set (population := py_range (fst (get_number_ranges lottery_type))
                         (snd (get_number_ranges lottery_type) + 1)).
    assert (Hincl : incl e population).
    { intros x Hx. apply py_range_In.
      unfold in_range in Hrange. rewrite Forall_forall in Hrange.
      specialize (Hrange x Hx). lia. }
    destruct (sample_loop_reaches e population (py_range_NoDup _ _) Hnd Hincl)
      as [js [_ Hjs]].
    exists (fun i => nth i js 0%nat).
    destruct (Hjs (rng_of (fun i => nth i js 0%nat))) as [g' Hg'].
    { intros i _. reflexivity. }
    unfold run. rewrite He by reflexivity.
    unfold random_entry, bind, ret, sample. fold population.
    destruct (range_larger_than_entry lottery_type) as [_ Hk].
    fold population in Hk.
    assert (((numbers_needed_of lottery_type <? 0)
             || (Z.of_nat (length population) <? numbers_needed_of lottery_type))
            = false) as -> by lia.
    rewrite <- Hlen, Nat2Z.id, Hg'.
    now rewrite sorted_of_sorted.
Qed.

Lemma generate_entry_empty_table_witness :
  calculate_frequency powerball_no_draws "powerball" = Ok [] /\
  generate_frequency_based_entry powerball_no_draws "powerball" "lucky"
    (rng_of (fun n => n))
    = random_entry "powerball" (rng_of (fun n => n)).
Proof.
  split; [reflexivity|].
  exact (proj1 (generate_entry_empty_table powerball_no_draws "powerball"
                  "lucky" (rng_of (fun n => n)) eq_refl)).
Defined.

Lemma known_strategy_false (strategy : string) :
  strategy <> "hot" -> strategy <> "cold" -> strategy <> "balanced" ->
  strategy <> "random" -> known_strategy strategy = false.
Proof.
  intros H1 H2 H3 H4. unfold known_strategy.
  apply String.eqb_neq in H1, H2, H3, H4. now rewrite H1, H2, H3, H4.
Qed.

(** C6: a strategy that is none of hot, cold, balanced, random gives
    what the balanced strategy gives from the same source of randomness,
    and that is a result, not an exception, whenever the table can be
    read. *)
Theorem unknown_strategy_is_balanced
  (db : database) (lottery_type strategy : string) :
  strategy <> "hot" -> strategy <> "cold" -> strategy <> "balanced" ->
  strategy <> "random" ->
  (forall g,
     generate_frequency_based_entry db lottery_type strategy g =
     generate_frequency_based_entry db lottery_type "balanced" g) /\
  (forall f g,
     calculate_frequency db lottery_type = Ok f ->
     exists e g',
       generate_frequency_based_entry db lottery_type strategy g = Ok (e, g')).
Proof.
  intros H1 H2 H3 H4.
  pose proof (known_strategy_false strategy H1 H2 H3 H4) as Hk.
  split.
  - intros g. now apply generate_unknown_is_balanced.
  - intros f g Hf.
    destruct (generate_entry_shape db lottery_type f Hf strategy g)
      as [l [g' [Hg _]]].
    eauto.
Qed.

Lemma unknown_strategy_is_balanced_witness :
  "lucky" <> "hot" /\ "lucky" <> "cold" /\ "lucky" <> "balanced" /\
  "lucky" <> "random" /\
  forall g,
    generate_frequency_based_entry lotto649_single_draw "lotto649" "lucky" g =
    generate_frequency_based_entry lotto649_single_draw "lotto649" "balanced" g.
Proof.
  repeat (split; [discriminate|]).
  apply (unknown_strategy_is_balanced lotto649_single_draw "lotto649" "lucky");
    discriminate.
Defined.

(** C9: on a non-empty table the hot strategy keeps the first
    [numbers_needed - 1] numbers of the ranking of the
    [2 * numbers_needed] most frequent, and adds one number drawn from
    the pool of the numbers of the range that were not kept: the pool
    has no repeats, the index into it comes from the source of
    randomness, every number of the pool can be drawn, and counts play
    no part in who is in the pool. *)
Theorem hot_strategy_spec
  (db : database) (lottery_type : string) (f : frequency_table) (g : rng) :
  calculate_frequency db lottery_type = Ok f ->
  f <> [] ->
  let numbers_needed := numbers_needed_of lottery_type in
  let min_num := fst (get_number_ranges lottery_type) in
  let max_num := snd (get_number_ranges lottery_type) in
  let selected :=
    firstn (Z.to_nat (numbers_needed - 1))
      (map fst (rank_most_frequent f (numbers_needed * 2))) in
  let pool := remaining_pool_of min_num max_num selected in
  (exists x g',
     generate_frequency_based_entry db lottery_type "hot" g
       = Ok (sorted id false (selected ++ [x]), g') /\
     x = nth (Nat.modulo (tape g (pos g)) (length pool)) pool 0 /\
     In x pool) /\
  NoDup pool /\
  (forall y, In y pool <-> min_num <= y <= max_num /\ ~ In y selected) /\
  (forall y, In y pool ->
     exists t,
       run (generate_frequency_based_entry db lottery_type "hot") (rng_of t)
         = Ok (sorted id false (selected ++ [y]))).
Proof.
  intros Hf Hne numbers_needed min_num max_num selected pool.
  assert (Hsel : selected = hot_selection lottery_type f).
  { unfold hot_selection. fold numbers_needed. rewrite slice_to_nonneg.
    - reflexivity.
    - subst numbers_needed.
      destruct (profile_bounds lottery_type) as [_ [_ H]]. lia. }
  assert (Hpool : pool = pool_of lottery_type (hot_selection lottery_type f)).
  { subst pool. now rewrite Hsel. }
  split; [|split; [|split]].
  - rewrite Hsel, Hpool. exact (hot_entry_shape db lottery_type f Hf g Hne).
  - apply remaining_pool_NoDup.
  - intros y. apply remaining_pool_In.
  - intros y Hy.
    destruct (In_nth pool y 0 Hy) as [j [Hj Hnth]].
    exists (fun _ => j).
    destruct (hot_entry_shape db lottery_type f Hf (rng_of (fun _ => j)) Hne)
      as [x [g' [Hg [Hx _]]]].
    rewrite <- Hpool in Hx. cbn [tape pos rng_of] in Hx.
    rewrite Nat.mod_small in Hx by exact Hj. rewrite Hnth in Hx. subst x.
    unfold run. rewrite Hg. now rewrite Hsel.
Qed.

Lemma hot_strategy_spec_witness :
  calculate_frequency lotto649_single_draw "lotto649"
    = Ok [(1, 1); (2, 1); (3, 1); (4, 1); (5, 1); (6, 1)] /\
  [(1, 1); (2, 1); (3, 1); (4, 1); (5, 1); (6, 1)] <> [] /\
  exists x g',
    generate_frequency_based_entry lotto649_single_draw "lotto649" "hot"
      (rng_of (fun n => n))
      = Ok (sorted id false ([1; 2; 3; 4; 5] ++ [x]), g') /\
    In x (remaining_pool_of 1 49 [1; 2; 3; 4; 5]).
Proof.
  split; [reflexivity|]. split; [discriminate|].
  destruct (hot_strategy_spec lotto649_single_draw "lotto649"
              [(1, 1); (2, 1); (3, 1); (4, 1); (5, 1); (6, 1)]
              (rng_of (fun n => n)) eq_refl ltac:(discriminate))
    as [[x [g' [Hg [_ Hx]]]] _].
  exists x, g'. split; [exact Hg | exact Hx].
Defined.

(* ------------------------------------------------------------------ *)
(** ** [generate_optimal_entries] *)

Lemma entries_loop_ok (db : database) (lottery_type : string)
  (f : frequency_table) :
  calculate_frequency db lottery_type = Ok f ->
  forall (indices : list Z) (entries : list entry) (g : rng),
  exists added g',
    entries_loop db lottery_type indices entries g
      = Ok (entries ++ added, g') /\
    Forall2 entry_for indices added.
Proof.
  intros Hf. induction indices as [|i indices IH]; intros entries g.
  - exists [], g. rewrite app_nil_r. split; [reflexivity | constructor].
  - cbn [entries_loop].
    set (s := nth _ strategies "").
    destruct (generate_entry_shape db lottery_type f Hf s g)
      as [l [g1 [Hg _]]].
    set (e := {| entry_number := i + 1; strategy := s;
                 numbers := sorted id false l |}).
    destruct (IH (entries ++ [e]) g1) as [added [g' [Hl Hall]]].
    exists (e :: added), g'. unfold bind. rewrite Hg. fold e.
    rewrite Hl, <- app_assoc. split; [reflexivity|].
    constructor; [|exact Hall]. split; reflexivity.
Qed.

Lemma py_range_nth (n : Z) (i : nat) :
  (i < Z.to_nat n)%nat -> nth_error (py_range 0 n) i = Some (Z.of_nat i).
Proof.
  intros H. unfold py_range.
  rewrite nth_error_map, nth_error_seq.
  rewrite Z.sub_0_r.
  destruct (Nat.ltb_spec i (Z.to_nat n)); [reflexivity | lia].
Qed.

Lemma Forall2_nth_error {A B} (R : A -> B -> Prop) (l : list A) (l' : list B) :
  Forall2 R l l' ->
  forall i a, nth_error l i = Some a ->
  exists b, nth_error l' i = Some b /\ R a b.
Proof.
  induction 1 as [|x y l l' Hxy _ IH]; intros [|i] a Ha; simpl in *;
    try discriminate.
  - injection Ha as <-. eauto.
  - now apply IH.
Qed.

(** C4: for [n >= 0], and a table that can be read,
    [generate_optimal_entries] returns [n] entries; the entry at
    position [i] has the strategy at position [i mod 5] of the rotation
    hot, balanced, cold, random, hot, and the entry number [i + 1]; for
    [n = 5] the strategies are the rotation itself. *)
Theorem generate_optimal_entries_rotation
  (db : database) (lottery_type : string) (f : frequency_table)
  (n : Z) (g : rng) :
  0 <= n ->
  calculate_frequency db lottery_type = Ok f ->
  exists entries g',
    generate_optimal_entries db lottery_type n g = Ok (entries, g') /\
    Z.of_nat (length entries) = n /\
    (forall i, (i < Z.to_nat n)%nat ->
       exists e, nth_error entries i = Some e /\
         strategy e = nth (Nat.modulo i 5) strategies "" /\
         entry_number e = Z.of_nat i + 1) /\
    (n = 5 -> map strategy entries = ["hot"; "balanced"; "cold"; "random"; "hot"]).
Proof.
  intros Hn Hf. unfold generate_optimal_entries.
  destruct (entries_loop_ok db lottery_type f Hf (py_range 0 n) [] g)
    as [entries [g' [Hl Hall]]].
  simpl in Hl. exists entries, g'. split; [exact Hl|].
  assert (Hlen : Z.of_nat (length entries) = n).
  { rewrite <- (Forall2_length Hall), py_range_length. lia. }
  assert (Hnth : forall i, (i < Z.to_nat n)%nat ->
            exists e, nth_error entries i = Some e /\
              strategy e = nth (Nat.modulo i 5) strategies "" /\
              entry_number e = Z.of_nat i + 1).
  { intros i Hi.
    destruct (Forall2_nth_error _ _ _ Hall i _ (py_range_nth n i Hi))
      as [e [He [Hnum Hstr]]].
    exists e. split; [exact He|]. split; [|exact Hnum].
    rewrite Hstr. f_equal.
    change 5 with (Z.of_nat 5). rewrite <- Nat2Z.inj_mod. apply Nat2Z.id. }
  split; [exact Hlen|]. split; [exact Hnth|].
  intros ->.
  apply (f_equal Z.to_nat) in Hlen. rewrite Nat2Z.id in Hlen.
  change (Z.to_nat 5) with 5%nat in *.
  destruct entries as [|e0 [|e1 [|e2 [|e3 [|e4 [|e5 rest]]]]]];
    try discriminate Hlen.
  destruct (Hnth 0%nat ltac:(simpl; lia)) as [a0 [E0 [S0 _]]].
  destruct (Hnth 1%nat ltac:(simpl; lia)) as [a1 [E1 [S1 _]]].
  destruct (Hnth 2%nat ltac:(simpl; lia)) as [a2 [E2 [S2 _]]].
  destruct (Hnth 3%nat ltac:(simpl; lia)) as [a3 [E3 [S3 _]]].
  destruct (Hnth 4%nat ltac:(simpl; lia)) as [a4 [E4 [S4 _]]].
  simpl in E0, E1, E2, E3, E4.
  injection E0 as <-. injection E1 as <-. injection E2 as <-.
  injection E3 as <-. injection E4 as <-.
  simpl. now rewrite S0, S1, S2, S3, S4.
Qed.

Lemma generate_optimal_entries_rotation_witness :
  0 <= 5 /\
  calculate_frequency lotto649_single_draw "lotto649"
    = Ok [(1, 1); (2, 1); (3, 1); (4, 1); (5, 1); (6, 1)] /\
  exists entries g',
    generate_optimal_entries lotto649_single_draw "lotto649" 5
      (rng_of (fun n => n)) = Ok (entries, g') /\
    Z.of_nat (length entries) = 5 /\
    map strategy entries = ["hot"; "balanced"; "cold"; "random"; "hot"].
Proof.
  split; [lia|]. split; [reflexivity|].
  destruct (generate_optimal_entries_rotation lotto649_single_draw "lotto649"
              [(1, 1); (2, 1); (3, 1); (4, 1); (5, 1); (6, 1)] 5
              (rng_of (fun n => n)) ltac:(lia) eq_refl)
    as [entries [g' [Hg [Hlen [_ H5]]]]].
  exists entries, g'. split; [exact Hg|]. split; [exact Hlen | now apply H5].
Defined.

(* ================================================================== *)
(** * The stored text of a draw and its reading *)

(* ------------------------------------------------------------------ *)
(** ** Characters *)

Lemma decimal_char (c : ascii) :
  PyStr.is_decimal c = true ->
  PyStr.is_space c = false /\ PyStr.is_int_space c = false /\
  PyStr.is_digit c = true /\ Ascii.eqb c "," = false.
Proof.
  unfold PyStr.is_decimal, PyStr.is_space, PyStr.is_int_space, PyStr.is_digit,
    PyStr.is_decimal.
  intros H. apply andb_true_iff in H. destruct H as [H1 H2].
  apply Nat.leb_le in H1, H2.
  split; [|split; [|split]].
  - decide_codes.
  - decide_codes.
  - decide_codes.
  - apply Ascii.eqb_neq. intros ->.
    change (nat_of_ascii ",") with 44%nat in H1. lia.
Qed.

Lemma digit_char_decimal (d : Z) :
  0 <= d < 10 ->
  PyStr.is_decimal (ascii_of_nat (48 + Z.to_nat d)) = true /\
  Z.of_nat (nat_of_ascii (ascii_of_nat (48 + Z.to_nat d)) - 48) = d.
Proof.
  intros H. rewrite <- (Z2Nat.id d) at 3 by lia.
  assert (Hd : (Z.to_nat d < 10)%nat) by lia.
  unfold PyStr.is_decimal.
  rewrite nat_ascii_embedding by lia.
  split; [|f_equal; lia].
  apply andb_true_iff. split; apply Nat.leb_le; lia.
Qed.

(* ------------------------------------------------------------------ *)
(** ** [strip] and [split] on text without white space or separators *)

Lemma all_chars_impl (p q : ascii -> bool) (s : string) :
  (forall c, p c = true -> q c = true) ->
  PyStr.all_chars p s = true -> PyStr.all_chars q s = true.
Proof.
  intros Hpq. induction s as [|c s IH]; simpl; [easy|].
  intros H. apply andb_true_iff in H. destruct H as [Hc Hs].
  now rewrite (Hpq c Hc), IH.
Qed.

Lemma all_chars_app (p : ascii -> bool) (s1 s2 : string) :
  PyStr.all_chars p (String.append s1 s2)
  = PyStr.all_chars p s1 && PyStr.all_chars p s2.
Proof.
  induction s1 as [|c s1 IH]; simpl; [reflexivity|].
  now rewrite IH, andb_assoc.
Qed.

Lemma lstrip_by_id (space : ascii -> bool) (s : string) :
  PyStr.all_chars (fun c => negb (space c)) s = true ->
  PyStr.lstrip_by space s = s.
Proof.
  destruct s as [|c s]; simpl; [reflexivity|].
  intros H. apply andb_true_iff in H. destruct H as [Hc _].
  apply negb_true_iff in Hc. now rewrite Hc.
Qed.

Lemma rstrip_by_id (space : ascii -> bool) (s : string) :
  PyStr.all_chars (fun c => negb (space c)) s = true ->
  PyStr.rstrip_by space s = s.
Proof.
  induction s as [|c s IH]; simpl; [reflexivity|].
  intros H. apply andb_true_iff in H. destruct H as [Hc Hs].
  rewrite (IH Hs). apply negb_true_iff in Hc.
  destruct s; [now rewrite Hc | reflexivity].
Qed.

Lemma split_no_sep (sep : ascii) (x : string) :
  PyStr.all_chars (fun c => negb (Ascii.eqb c sep)) x = true ->
  PyStr.split sep x = [x].
Proof.
  induction x as [|c x IH]; simpl; [reflexivity|].
  intros H. apply andb_true_iff in H. destruct H as [Hc Hx].
  apply negb_true_iff in Hc. now rewrite Hc, (IH Hx).
Qed.

Lemma split_first (sep : ascii) (x rest : string) :
  PyStr.all_chars (fun c => negb (Ascii.eqb c sep)) x = true ->
  PyStr.split sep (String.append x (String sep rest))
  = x :: PyStr.split sep rest.
Proof.
  induction x as [|c x IH]; simpl.
  - intros _. now rewrite Ascii.eqb_refl.
  - intros H. apply andb_true_iff in H. destruct H as [Hc Hx].
    apply negb_true_iff in Hc. now rewrite Hc, (IH Hx).
Qed.

(** [split] undoes [join] on a list, not empty, of texts without the
    separator. *)
Lemma split_join (sep : ascii) (toks : list string) :
  toks <> [] ->
  Forall (fun x => PyStr.all_chars (fun c => negb (Ascii.eqb c sep)) x = true)
         toks ->
  PyStr.split sep (PyStr.join (String sep EmptyString) toks) = toks.
Proof.
  intros Hne H. induction H as [|x toks Hx Htoks IH]; [easy|].
  destruct toks as [|y toks].
  - simpl. now apply split_no_sep.
  - change (PyStr.join (String sep EmptyString) (x :: y :: toks))
      with (String.append x
              (String sep (PyStr.join (String sep EmptyString) (y :: toks)))).
    rewrite split_first by exact Hx. f_equal. apply IH. discriminate.
Qed.

(* ------------------------------------------------------------------ *)
(** ** The digits of a number *)

Lemma string_app_assoc (s1 s2 s3 : string) :
  String.append (String.append s1 s2) s3
  = String.append s1 (String.append s2 s3).
Proof. induction s1 as [|c s1 IH]; simpl; [reflexivity | now rewrite IH]. Qed.

Lemma digits_from_app (fuel : nat) (n : Z) (acc : string) :
  PyStr.digits_from fuel n acc
  = String.append (PyStr.digits_from fuel n EmptyString) acc.
Proof.
  revert n acc; induction fuel as [|fuel IH]; intros n acc;
    cbn [PyStr.digits_from]; [reflexivity|].
  destruct (n <? 10); [reflexivity|].
  rewrite IH. rewrite (IH _ (String _ EmptyString)).
  rewrite string_app_assoc. reflexivity.
Qed.

Lemma digits_from_decimal (fuel : nat) (n : Z) (acc : string) :
  PyStr.all_chars PyStr.is_decimal acc = true ->
  PyStr.all_chars PyStr.is_decimal (PyStr.digits_from fuel n acc) = true.
Proof.
  assert (Hd : forall m, PyStr.is_decimal
                 (ascii_of_nat (48 + Z.to_nat (m mod 10))) = true).
  { intros m. apply digit_char_decimal, Z.mod_pos_bound. lia. }
  revert n acc; induction fuel as [|fuel IH]; intros n acc Hacc;
    cbn [PyStr.digits_from].
  - cbn [PyStr.all_chars]. now rewrite Hd, Hacc.
  - destruct (n <? 10).
    + cbn [PyStr.all_chars]. now rewrite Hd, Hacc.
    + apply IH. cbn [PyStr.all_chars]. now rewrite Hd, Hacc.
Qed.

Lemma digits_from_not_empty (fuel : nat) (n : Z) (acc : string) :
  PyStr.is_empty (PyStr.digits_from fuel n acc) = false.
Proof.
  assert (H : forall m a, exists c r, PyStr.digits_from fuel m a = String c r).
  { clear. induction fuel as [|fuel IH]; intros m a; cbn [PyStr.digits_from];
      [eauto|].
    destruct (m <? 10); [eauto | apply IH]. }
  destruct (H n acc) as [c [r ->]]. reflexivity.
Qed.

Lemma decimal_value_snoc (s : string) (c : ascii) (a : Z) :
  PyStr.decimal_value a (String.append s (String c EmptyString))
  = 10 * PyStr.decimal_value a s + Z.of_nat (nat_of_ascii c - 48).
Proof.
  revert a; induction s as [|c' s IH]; intros a; cbn [String.append PyStr.decimal_value];
    [reflexivity | apply IH].
Qed.

Lemma digits_from_value (fuel : nat) (n : Z) :
  0 <= n < 10 * 10 ^ Z.of_nat fuel ->
  PyStr.decimal_value 0 (PyStr.digits_from fuel n EmptyString) = n.
Proof.
  revert n; induction fuel as [|fuel IH]; intros n Hn.
  - change (10 ^ Z.of_nat 0) with 1 in Hn.
    cbn [PyStr.digits_from PyStr.decimal_value].
    destruct (digit_char_decimal (n mod 10)) as [_ ->];
      [apply Z.mod_pos_bound; lia|].
    rewrite Z.mod_small by lia. lia.
  - cbn [PyStr.digits_from].
    destruct (n <? 10) eqn:E.
    + cbn [PyStr.decimal_value].
      destruct (digit_char_decimal (n mod 10)) as [_ ->];
        [apply Z.mod_pos_bound; lia|].
      rewrite Z.mod_small by lia. lia.
    + rewrite digits_from_app, decimal_value_snoc.
      destruct (digit_char_decimal (n mod 10)) as [_ ->];
        [apply Z.mod_pos_bound; lia|].
      rewrite IH.
      * pose proof (Z.div_mod n 10 ltac:(lia)). lia.
      * rewrite Nat2Z.inj_succ, Z.pow_succ_r in Hn by lia.
        split; [apply Z.div_pos; lia|].
        apply Z.div_lt_upper_bound; lia.
Qed.

Lemma log2_fuel (n : Z) : 0 <= n -> n < 10 * 10 ^ Z.of_nat (Z.to_nat (Z.log2 n)).
Proof.
  intros Hn. rewrite Z2Nat.id by apply Z.log2_nonneg.
  destruct (Z.eq_dec n 0) as [->|Hne]; [simpl; lia|].
  pose proof (Z.log2_spec n ltac:(lia)) as [_ Hup].
  rewrite Z.pow_succ_r in Hup by apply Z.log2_nonneg.
  assert (2 ^ Z.log2 n <= 10 ^ Z.log2 n).
  { apply Z.pow_le_mono_l. lia. }
  lia.
Qed.

Lemma decimal_digits_value (n : Z) :
  0 <= n -> PyStr.decimal_value 0 (PyStr.decimal_digits n) = n.
Proof.
  intros Hn. apply digits_from_value. split; [exact Hn | now apply log2_fuel].
Qed.

Lemma decimal_digits_decimal (n : Z) :
  PyStr.all_chars PyStr.is_decimal (PyStr.decimal_digits n) = true.
Proof. now apply digits_from_decimal. Qed.

Lemma digits_from_length (fuel : nat) :
  forall (k : nat) (n : Z) (acc : string),
  0 <= n < 10 * 10 ^ Z.of_nat k ->
  (String.length (PyStr.digits_from fuel n acc)
   <= S k + String.length acc)%nat.
Proof.
  induction fuel as [|fuel IH]; intros k n acc Hn; cbn [PyStr.digits_from].
  - cbn [String.length]. lia.
  - destruct (n <? 10) eqn:E; [cbn [String.length]; lia|].
    destruct k as [|k]; [change (10 ^ Z.of_nat 0) with 1 in Hn; lia|].
    rewrite Nat2Z.inj_succ, Z.pow_succ_r in Hn by lia.
    assert (H : 0 <= n / 10 < 10 * 10 ^ Z.of_nat k).
    { split; [apply Z.div_pos; lia | apply Z.div_lt_upper_bound; lia]. }
    specialize (IH k (n / 10)
                  (String (ascii_of_nat (48 + Z.to_nat (n mod 10))) acc) H).
    cbn [String.length] in IH. lia.
Qed.

Lemma decimal_digits_length (k : nat) (n : Z) :
  0 <= n < 10 ^ Z.of_nat (S k) ->
  (String.length (PyStr.decimal_digits n) <= S k)%nat.
Proof.
  intros Hn. rewrite Nat2Z.inj_succ, Z.pow_succ_r in Hn by lia.
  pose proof (digits_from_length (Z.to_nat (Z.log2 n)) k n EmptyString Hn) as H.
  cbn [String.length] in H. unfold PyStr.decimal_digits. lia.
Qed.

(** [str] returns for every number of at most [max_str_digits] digits. *)
Lemma str_ok (n : Z) :
  Z.abs n < 10 ^ Z.of_nat PyStr.max_str_digits ->
  PyStr.str n
  = Ok (if n <? 0 then String "-" (PyStr.decimal_digits (Z.abs n))
        else PyStr.decimal_digits (Z.abs n)).
Proof.
  intros Hn. unfold PyStr.str.
  assert (Hlen : (String.length (PyStr.decimal_digits (Z.abs n))
                  <= PyStr.max_str_digits)%nat).
  { apply (decimal_digits_length 4299). split; [apply Z.abs_nonneg | exact Hn]. }
  apply Nat.leb_le in Hlen. now rewrite Hlen.
Qed.

(* ------------------------------------------------------------------ *)
(** ** Reading back what [str] wrote *)

Lemma str_inv (n : Z) (t : string) :
  PyStr.str n = Ok t ->
  (String.length (PyStr.decimal_digits (Z.abs n)) <= PyStr.max_str_digits)%nat /\
  t = (if n <? 0 then String "-" (PyStr.decimal_digits (Z.abs n))
       else PyStr.decimal_digits (Z.abs n)).
Proof.
  unfold PyStr.str.
  destruct (Nat.leb_spec (String.length (PyStr.decimal_digits (Z.abs n)))
              PyStr.max_str_digits) as [H|H]; [|discriminate].
  intros [= <-]. now split.
Qed.

Lemma strip_decimal (s : string) :
  PyStr.all_chars PyStr.is_decimal s = true ->
  PyStr.strip s = s /\ PyStr.int_text s = s.
Proof.
  intros H. unfold PyStr.strip, PyStr.int_text.
  assert (H1 : PyStr.all_chars (fun c => negb (PyStr.is_space c)) s = true).
  { revert H. apply all_chars_impl. intros c Hc.
    now destruct (decimal_char c Hc) as [-> _]. }
  assert (H2 : PyStr.all_chars (fun c => negb (PyStr.is_int_space c)) s = true).
  { revert H. apply all_chars_impl. intros c Hc.
    now destruct (decimal_char c Hc) as [_ [-> _]]. }
  rewrite !lstrip_by_id, !rstrip_by_id; auto.
Qed.

(** The text of a number has no comma. *)
Lemma str_no_comma (n : Z) (t : string) :
  PyStr.str n = Ok t ->
  PyStr.all_chars (fun c => negb (Ascii.eqb c ",")) t = true.
Proof.
  intros H. destruct (str_inv n t H) as [_ ->].
  assert (Hd : PyStr.all_chars (fun c => negb (Ascii.eqb c ","))
                 (PyStr.decimal_digits (Z.abs n)) = true).
  { generalize (decimal_digits_decimal (Z.abs n)).
    apply all_chars_impl. intros c Hc.
    now destruct (decimal_char c Hc) as [_ [_ [_ ->]]]. }
  destruct (n <? 0); [|exact Hd].
  cbn [PyStr.all_chars]. now rewrite Hd.
Qed.

(** The text of a number that is not negative passes the [isdigit] test
    and [int()] reads the number from it. *)
Lemma str_nonneg_token (n : Z) (t : string) :
  0 <= n -> PyStr.str n = Ok t ->
  PyStr.isdigit (PyStr.strip t) = true /\ PyStr.int t = Ok n.
Proof.
  intros Hn H. destruct (str_inv n t H) as [Hlen ->].
  assert ((n <? 0) = false) as -> by lia.
  rewrite Z.abs_eq in * by exact Hn.
  pose proof (decimal_digits_decimal n) as Hd.
  destruct (strip_decimal _ Hd) as [Hs Hi].
  split.
  - rewrite Hs. unfold PyStr.isdigit.
    unfold PyStr.decimal_digits at 1. rewrite digits_from_not_empty.
    cbn [negb andb]. revert Hd. apply all_chars_impl. intros c Hc.
    now destruct (decimal_char c Hc) as [_ [_ [-> _]]].
  - unfold PyStr.int. rewrite Hi, Hd.
    unfold PyStr.decimal_digits at 1. rewrite digits_from_not_empty.
    apply Nat.leb_le in Hlen. rewrite Hlen. cbn [negb andb].
    now rewrite decimal_digits_value.
Qed.

(** The text of a negative number fails the [isdigit] test. *)
Lemma str_negative_token (n : Z) (t : string) :
  n < 0 -> PyStr.str n = Ok t -> PyStr.isdigit (PyStr.strip t) = false.
Proof.
  intros Hn H. destruct (str_inv n t H) as [_ ->].
  assert ((n <? 0) = true) as -> by lia.
  pose proof (decimal_digits_decimal (Z.abs n)) as Hd.
  assert (Hs : PyStr.strip (String "-" (PyStr.decimal_digits (Z.abs n)))
               = String "-" (PyStr.decimal_digits (Z.abs n))).
  { unfold PyStr.strip. rewrite lstrip_by_id, rstrip_by_id; auto;
      cbn [PyStr.all_chars];
      (replace (negb (PyStr.is_space "-")) with true by reflexivity);
      cbn [andb]; revert Hd; apply all_chars_impl; intros c Hc;
      now destruct (decimal_char c Hc) as [-> _]. }
  rewrite Hs. reflexivity.
Qed.

Lemma map_result_Forall2 {A B} (f : A -> result B) (l : list A) (l' : list B) :
  map_result f l = Ok l' -> Forall2 (fun a b => f a = Ok b) l l'.
Proof.
  revert l'; induction l as [|a l IH]; intros l'; simpl.
  - intros [= <-]. constructor.
  - destruct (f a) as [b|e] eqn:Ea; simpl; [|discriminate].
    destruct (map_result f l) as [bs|e]; simpl; [|discriminate].
    intros [= <-]. constructor; auto.
Qed.

Lemma read_tokens (numbers : list Z) (strs : list string) :
  Forall2 (fun n t => PyStr.str n = Ok t) numbers strs ->
  map_result PyStr.int
    (filter (fun t => PyStr.isdigit (PyStr.strip t)) strs)
  = Ok (filter (fun n => 0 <=? n) numbers).
Proof.
  induction 1 as [|n t numbers strs Hnt _ IH]; [reflexivity|].
  cbn [filter].
  destruct (Z.leb_spec 0 n) as [Hn|Hn].
  - destruct (str_nonneg_token n t Hn Hnt) as [-> Hint].
    cbn [map_result]. rewrite Hint, IH. reflexivity.
  - now rewrite (str_negative_token n t Hn Hnt).
Qed.

Lemma numbers_text_inv (numbers : list Z) (text : string) :
  numbers_text numbers = Ok text ->
  exists strs,
    Forall2 (fun n t => PyStr.str n = Ok t) numbers strs /\
    text = PyStr.join "," strs.
Proof.
  unfold numbers_text.
  destruct (map_result PyStr.str numbers) as [strs|e] eqn:E; simpl;
    [|discriminate].
  intros [= <-]. exists strs. split; [now apply map_result_Forall2 | reflexivity].
Qed.

(** The texts of the numbers of a draw, joined by commas, read back as
    the numbers that are not negative. *)
Lemma parse_joined_texts (numbers : list Z) (strs : list string) :
  Forall2 (fun n t => PyStr.str n = Ok t) numbers strs ->
  parse_numbers (PyStr.join "," strs) = Ok (filter (fun n => 0 <=? n) numbers).
Proof.
  intros Hall. unfold parse_numbers.
  destruct strs as [|t strs].
  - inversion Hall; subst. reflexivity.
  - rewrite (split_join "," (t :: strs)).
    + now apply read_tokens.
    + discriminate.
    + remember (t :: strs) as l eqn:El. clear El.
      induction Hall as [|n s ns ss Hns _ IH]; constructor; [|exact IH].
      exact (str_no_comma n s Hns).
Qed.

(** X1: The stored text of a draw reads back as the numbers of the draw
    that are not negative, in their order. *)
Theorem stored_numbers_read_back (numbers : list Z) (text : string) :
  numbers_text numbers = Ok text ->
  parse_numbers text = Ok (filter (fun n => 0 <=? n) numbers).
Proof.
  intros H. destruct (numbers_text_inv numbers text H) as [strs [Hall Ht]].
  subst text. now apply parse_joined_texts.
Qed.

Lemma stored_numbers_read_back_witness :
  numbers_text [5; -3; 0; 12] = Ok "5,-3,0,12" /\
  parse_numbers "5,-3,0,12" = Ok [5; 0; 12].
Proof.
  split; [reflexivity|].
  exact (stored_numbers_read_back [5; -3; 0; 12] "5,-3,0,12" eq_refl).
Defined.

Lemma numbers_text_empty (numbers : list Z) (text : string) :
  numbers_text numbers = Ok text ->
  PyStr.is_empty text = (length numbers =? 0)%nat.
Proof.
  intros H. destruct (numbers_text_inv numbers text H) as [strs [Hall ->]].
  destruct Hall as [|n t numbers strs Hnt Hrest]; [reflexivity|].
  destruct (str_inv n t Hnt) as [_ Ht].
  assert (Hne : exists c r, t = String c r).
  { rewrite Ht. destruct (n <? 0); [eauto|].
    pose proof (digits_from_not_empty (Z.to_nat (Z.log2 (Z.abs n)))
                  (Z.abs n) EmptyString) as He.
    unfold PyStr.decimal_digits.
    destruct (PyStr.digits_from _ _ _); [discriminate | eauto]. }
  destruct Hne as [c [r ->]]. destruct strs; reflexivity.
Qed.

Lemma concat_skip_empty {A B} (f : list A -> list B) (l : list (list A)) :
  f [] = [] ->
  concat (map f (filter (fun d => negb (length d =? 0)%nat) l))
  = concat (map f l).
Proof.
  intros Hf. induction l as [|d l IH]; [reflexivity|].
  destruct d as [|a d]; simpl.
  - now rewrite Hf.
  - now rewrite IH.
Qed.

(** X2: When the rows of a table are the stored texts of a list of draws,
    [get_all_drawn_numbers] returns the draws that are not empty, each
    without its negative numbers, and [calculate_frequency] counts the
    numbers of the draws that are not negative. *)
Theorem stored_history_read_back
  (db : database) (lottery_type : string)
  (draws : list (list Z)) (texts : list string) :
  map_result numbers_text draws = Ok texts ->
  db (String.append lottery_type "_results") = Some texts ->
  get_all_drawn_numbers db lottery_type
    = Ok (map (filter (fun n => 0 <=? n))
              (filter (fun d => negb (length d =? 0)%nat) draws)) /\
  calculate_frequency db lottery_type
    = Ok (count_draws (map (filter (fun n => 0 <=? n)) draws)).
Proof.
  intros Htexts Hdb.
  assert (Hrows : parse_rows texts
                  = Ok (map (filter (fun n => 0 <=? n))
                            (filter (fun d => negb (length d =? 0)%nat) draws))).
  { apply map_result_Forall2 in Htexts. clear Hdb.
    induction Htexts as [|d t draws texts Hdt _ IH]; [reflexivity|].
    cbn [parse_rows filter].
    rewrite (numbers_text_empty d t Hdt).
    destruct (length d =? 0)%nat; cbn [negb]; [exact IH|].
    destruct (numbers_text_inv d t Hdt) as [strs [Hall Ht]].
    rewrite Ht, (parse_joined_texts d strs Hall), IH. reflexivity. }
  assert (Hget : get_all_drawn_numbers db lottery_type
                 = Ok (map (filter (fun n => 0 <=? n))
                           (filter (fun d => negb (length d =? 0)%nat) draws))).
  { unfold get_all_drawn_numbers. now rewrite Hdb. }
  split; [exact Hget|].
  unfold calculate_frequency. rewrite Hget. cbn [bind_result].
  f_equal. rewrite !count_draws_flat. f_equal.
  now apply concat_skip_empty.
Qed.

Lemma stored_history_read_back_witness :
  map_result numbers_text [[1; 2; 3]; []; [4; -5; 2]]
    = Ok ["1,2,3"; ""; "4,-5,2"] /\
  calculate_frequency
    (single_table "lottomax_results" ["1,2,3"; ""; "4,-5,2"]) "lottomax"
    = Ok [(1, 1); (2, 2); (3, 1); (4, 1)].
Proof.
  split; [reflexivity|].
  exact (proj2 (stored_history_read_back
                  (single_table "lottomax_results" ["1,2,3"; ""; "4,-5,2"])
                  "lottomax" [[1; 2; 3]; []; [4; -5; 2]]
                  ["1,2,3"; ""; "4,-5,2"] eq_refl eq_refl)).
Defined.

(* ================================================================== *)
(** * Exceptions *)









(** A superscript two passes [isdigit] and is refused by [int()]. *)
Example superscript_raises :
  get_all_drawn_numbers
    (single_table "lotto649_results"
       ["1,2"; String.append "3," (String (ascii_of_nat 178) "")])
    "lotto649" = Raise ValueError.
Proof. reflexivity. Qed.

(** X4: [generate_frequency_based_entry] raises exactly when
    [calculate_frequency] does, and the same exception: neither the
    draws from the random source nor the nested call can fail. *)
Theorem generate_entry_raises
  (db : database) (lottery_type strategy : string) (g : rng) (e : exn) :
  generate_frequency_based_entry db lottery_type strategy g = Raise e <->
  calculate_frequency db lottery_type = Raise e.
Proof.
  unfold generate_frequency_based_entry.
  destruct (calculate_frequency db lottery_type) as [f|e'] eqn:Hf.
  - destruct (generate_entry_shape db lottery_type f Hf strategy g)
      as [l [g' [Hg _]]].
    unfold generate_frequency_based_entry in Hg. rewrite Hg.
    split; discriminate.
  - rewrite (generate_entry_at_raise db lottery_type _ strategy e' g Hf).
    split; intros [= <-]; reflexivity.
Qed.

(** X5: [generate_optimal_entries] with a count of zero or less returns the
    empty list without reading the table; with a positive count it
    raises exactly when [calculate_frequency] does, and the same
    exception. *)
Theorem generate_optimal_entries_raises
  (db : database) (lottery_type : string) (n : Z) (g : rng) :
  (n <= 0 -> generate_optimal_entries db lottery_type n g = Ok ([], g)) /\
  (forall e,
     generate_optimal_entries db lottery_type n g = Raise e <->
     0 < n /\ calculate_frequency db lottery_type = Raise e).
Proof.
  assert (Hempty : n <= 0 ->
            generate_optimal_entries db lottery_type n g = Ok ([], g)).
  { intros Hn. unfold generate_optimal_entries, py_range.
    replace (Z.to_nat (n - 0)) with 0%nat by lia. reflexivity. }
  split; [exact Hempty|]. intros e.
  destruct (Z_le_gt_dec n 0) as [Hn|Hn].
  { rewrite (Hempty Hn). split; [discriminate | lia]. }
  destruct (calculate_frequency db lottery_type) as [f|e'] eqn:Hf.
  - destruct (entries_loop_ok db lottery_type f Hf (py_range 0 n) [] g)
      as [added [g' [Hl _]]].
    unfold generate_optimal_entries. rewrite Hl.
    split; [discriminate | intros [_ H]; discriminate].
  - unfold generate_optimal_entries, py_range.
    replace (Z.to_nat (n - 0)) with (S (Z.to_nat (n - 1))) by lia.
    cbn [seq map entries_loop]. unfold bind at 1.
    unfold generate_frequency_based_entry.
    rewrite (generate_entry_at_raise db lottery_type _ _ e' g Hf).
    split; [intros [= <-]; split; [lia | reflexivity]|].
    intros [_ [= <-]]. reflexivity.
Qed.

(* ================================================================== *)
(** * Strategies that draw nothing *)

(** X6: On a non-empty table the cold strategy draws no random number: the
    entry is the same for every source of randomness, and the source is
    left as it was. *)
Theorem cold_entry_fixed
  (db : database) (lottery_type : string) (f : frequency_table) :
  calculate_frequency db lottery_type = Ok f ->
  f <> [] ->
  exists e,
    e = sorted id false (cold_selection lottery_type f) /\
    forall g,
      generate_frequency_based_entry db lottery_type "cold" g = Ok (e, g).
Proof.
  intros Hf Hne. eexists. split; [reflexivity|].
  intros g. now apply cold_entry_shape.
Qed.

Lemma cold_entry_fixed_witness :
  calculate_frequency lotto649_single_draw "lotto649"
    = Ok [(1, 1); (2, 1); (3, 1); (4, 1); (5, 1); (6, 1)] /\
  forall g,
    generate_frequency_based_entry lotto649_single_draw "lotto649" "cold" g
      = Ok ([1; 2; 3; 4; 5; 6], g).
Proof.
  split; [reflexivity|].
  destruct (cold_entry_fixed lotto649_single_draw "lotto649"
              [(1, 1); (2, 1); (3, 1); (4, 1); (5, 1); (6, 1)]
              eq_refl ltac:(discriminate)) as [e [He Hg]].
  subst e. exact Hg.
Defined.

(** X7: For Lotto 6/49 the balanced strategy draws no random number either
    as soon as the table has three keys: the three taken from each
    ranking fill the six places. *)
Theorem balanced_lotto649_fixed (db : database) (f : frequency_table) :
  calculate_frequency db "lotto649" = Ok f ->
  3 <= Z.of_nat (length (keys f)) ->
  exists e,
    e = sorted id false (balanced_picks "lotto649" f) /\
    length e = 6%nat /\
    forall g,
      generate_frequency_based_entry db "lotto649" "balanced" g = Ok (e, g).
Proof.
  intros Hf Hlen.
  assert (Hpicks : length (balanced_picks "lotto649" f) = 6%nat).
  { unfold balanced_picks, rank_most_frequent, rank_least_frequent.
    change (numbers_needed_of "lotto649") with 6. change (6 / 2) with 3.
    rewrite length_app.
    pose proof (ranked_keys_length f true 6 3 ltac:(lia)) as H1.
    pose proof (ranked_keys_length f false 6 3 ltac:(lia)) as H2.
    lia. }
  eexists. split; [reflexivity|]. split.
  - now rewrite sorted_length.
  - intros g. unfold generate_frequency_based_entry.
    rewrite (generate_entry_at_step db "lotto649" _ "balanced" f g Hf).
    destruct f as [|p f']; [simpl in Hlen; lia|].
    cbn [String.eqb Ascii.eqb Bool.eqb].
    change (numbers_needed_of "lotto649") with 6.
    change (Z.to_nat 6) with 6%nat.
    unfold bind. cbn [fill_remaining]. rewrite Hpicks.
    reflexivity.
Qed.

Lemma balanced_lotto649_fixed_witness :
  calculate_frequency lotto649_single_draw "lotto649"
    = Ok [(1, 1); (2, 1); (3, 1); (4, 1); (5, 1); (6, 1)] /\
  forall g,
    generate_frequency_based_entry lotto649_single_draw "lotto649"
      "balanced" g = Ok ([1; 1; 2; 2; 3; 3], g).
Proof.
  split; [reflexivity|].
  destruct (balanced_lotto649_fixed lotto649_single_draw
              [(1, 1); (2, 1); (3, 1); (4, 1); (5, 1); (6, 1)]
              eq_refl ltac:(simpl; lia)) as [e [He [_ Hg]]].
  subst e. exact Hg.
Defined.

(* ================================================================== *)
(** * Repeats in a balanced entry *)

(** With equal keys everywhere, [sorted] changes nothing. *)
Lemma sorted_ties {A} (key : A -> Z) (reverse : bool) (l : list A) (c : Z) :
  Forall (fun x => key x = c) l -> sorted key reverse l = l.
Proof.
  induction 1 as [|x l Hx Hl IH]; cbn [sorted]; [reflexivity|].
  rewrite IH. destruct Hl as [|y l Hy Hl]; [reflexivity|].
  cbn [insert_by]. rewrite Hx, Hy.
  now destruct reverse; rewrite Z.leb_refl.
Qed.

Lemma slice_to_cons {A} (count : Z) (x : A) (l : list A) :
  0 < count -> exists r, slice_to count (x :: l) = x :: r.
Proof.
  intros H. rewrite slice_to_nonneg by lia.
  destruct (Z.to_nat count) as [|k] eqn:E; [lia|].
  cbn [firstn]. eauto.
Qed.

Lemma NoDup_app_repeat {A} (x : A) (a b c : list A) :
  ~ NoDup ((x :: a) ++ (x :: b) ++ c).
Proof.
  intros H. cbn [app] in H. apply NoDup_cons_iff in H.
  destruct H as [H _]. apply H, in_or_app. right. now left.
Qed.

(** X9: When all counts of the table are equal, or the table has fewer keys
    than the two halves of the balanced strategy take together, the
    balanced entry has a number twice. *)
Theorem balanced_entry_has_repeats
  (db : database) (lottery_type : string) (f : frequency_table) (g : rng) :
  calculate_frequency db lottery_type = Ok f ->
  f <> [] ->
  (exists c, Forall (fun p => snd p = c) f) \/
  Z.of_nat (length (keys f)) < 2 * (numbers_needed_of lottery_type / 2) ->
  exists e g',
    generate_frequency_based_entry db lottery_type "balanced" g = Ok (e, g') /\
    ~ NoDup e.
Proof.
  intros Hf Hne Hcase.
  destruct (balanced_entry_shape db lottery_type f Hf g Hne)
    as [added [g' [Hg _]]].
  exists (sorted id false (balanced_picks lottery_type f ++ added)), g'.
  split; [exact Hg|].
  intros Hnd.
  apply (Permutation_NoDup (sorted_perm id false _)) in Hnd.
  destruct (profile_bounds lottery_type) as [_ [_ Hn]].
  assert (Hhalf : numbers_needed_of lottery_type / 2 = 3).
  { assert (Hn' : numbers_needed_of lottery_type = 6
                  \/ numbers_needed_of lottery_type = 7) by lia.
    destruct Hn' as [-> | ->]; reflexivity. }
  destruct Hcase as [[c Hc]|Hsmall].
  - unfold balanced_picks, rank_most_frequent, rank_least_frequent in Hnd.
    rewrite !(sorted_ties snd _ f c Hc) in Hnd.
    destruct f as [|p f']; [easy|].
    destruct (slice_to_cons (numbers_needed_of lottery_type) p f' ltac:(lia))
      as [r Hr].
    rewrite Hr in Hnd.
    destruct (slice_to_cons (numbers_needed_of lottery_type / 2) p r ltac:(lia))
      as [r' Hr'].
    rewrite Hr' in Hnd. cbn [map] in Hnd.
    rewrite <- app_assoc in Hnd.
    now apply NoDup_app_repeat in Hnd.
  - apply NoDup_app_remove_r in Hnd.
    assert (Hincl : incl (balanced_picks lottery_type f) (keys f)).
    { intros x. apply balanced_picks_In. }
    pose proof (NoDup_incl_length Hnd Hincl) as Hle.
    unfold balanced_picks, rank_most_frequent, rank_least_frequent in Hle.
    rewrite length_app in Hle.
    pose proof (ranked_keys_length f true (numbers_needed_of lottery_type)
                  (numbers_needed_of lottery_type / 2) ltac:(lia)) as H1.
    pose proof (ranked_keys_length f false (numbers_needed_of lottery_type)
                  (numbers_needed_of lottery_type / 2) ltac:(lia)) as H2.
    assert (Hpos : (0 < length (keys f))%nat).
    { destruct f; [easy | simpl; lia]. }
    lia.
Qed.

Lemma balanced_entry_has_repeats_witness :
  calculate_frequency lotto649_single_draw "lotto649"
    = Ok [(1, 1); (2, 1); (3, 1); (4, 1); (5, 1); (6, 1)] /\
  exists e g',
    generate_frequency_based_entry lotto649_single_draw "lotto649"
      "balanced" (rng_of (fun n => n)) = Ok (e, g') /\
    ~ NoDup e.
Proof.
  split; [reflexivity|].
  apply (balanced_entry_has_repeats lotto649_single_draw "lotto649"
           [(1, 1); (2, 1); (3, 1); (4, 1); (5, 1); (6, 1)]
           (rng_of (fun n => n)) eq_refl).
  - discriminate.
  - left. exists 1. repeat constructor.
Defined.

(* ================================================================== *)
(** * What the rankings select *)



Section Extremal.

Variable f : frequency_table.
Hypothesis f_keys : NoDup (keys f).


End Extremal.



(** X11: A number that was never drawn is in no cold entry: on a non-empty
    table every number of the entry occurs in a draw that was read. *)
Theorem cold_entry_was_drawn
  (db : database) (lottery_type : string) (f : frequency_table)
  (all_draws : list (list Z)) (g g' : rng) (e : list Z) :
  get_all_drawn_numbers db lottery_type = Ok all_draws ->
  calculate_frequency db lottery_type = Ok f ->
  f <> [] ->
  generate_frequency_based_entry db lottery_type "cold" g = Ok (e, g') ->
  forall x, In x e -> exists draw, In draw all_draws /\ In x draw.
Proof.
  intros Hd Hf Hne Hg x Hx.
  rewrite (cold_entry_shape db lottery_type f Hf g Hne) in Hg.
  injection Hg as <- _.
  apply sorted_In in Hx. rewrite cold_selection_eq in Hx.
  apply (ranked_keys_In f) in Hx.
  unfold calculate_frequency in Hf. rewrite Hd in Hf. injection Hf as <-.
  now apply count_draws_keys.
Qed.

Lemma cold_entry_was_drawn_witness :
  get_all_drawn_numbers lotto649_repeats "lotto649" = Ok [[7; 7; 3]; [7]] /\
  generate_frequency_based_entry lotto649_repeats "lotto649" "cold"
    (rng_of (fun n => n)) = Ok ([3; 7], rng_of (fun n => n)) /\
  forall x, In x [3; 7] ->
    exists draw, In draw [[7; 7; 3]; [7]] /\ In x draw.
Proof.
  split; [reflexivity|]. split; [reflexivity|].
  apply (cold_entry_was_drawn lotto649_repeats "lotto649" [(7, 3); (3, 1)]
           [[7; 7; 3]; [7]] (rng_of (fun n => n)) (rng_of (fun n => n)) [3; 7]);
    try reflexivity.
  discriminate.
Defined.

(* ================================================================== *)
(** * The two rankings against each other *)

Lemma StronglySorted_snoc {A} (R : A -> A -> Prop) (l : list A) (x : A) :
  StronglySorted R l -> Forall (fun y => R y x) l ->
  StronglySorted R (l ++ [x]).
Proof.
  induction 1 as [|y l Hl IH Hy]; intros Hx; cbn [app].
  - repeat constructor.
  - inversion Hx as [|? ? Hyx Hlx]; subst.
    constructor; [now apply IH|].
    apply Forall_app. split; [exact Hy | now constructor].
Qed.

Lemma StronglySorted_rev {A} (R : A -> A -> Prop) (l : list A) :
  StronglySorted R l -> StronglySorted (fun a b => R b a) (rev l).
Proof.
  induction 1 as [|x l Hl IH Hx]; cbn [rev]; [constructor|].
  apply StronglySorted_snoc; [exact IH|].
  apply Forall_forall. intros y Hy. apply in_rev in Hy.
  rewrite Forall_forall in Hx. now apply Hx.
Qed.

(** Two sorted arrangements of the same elements are the same list when
    the order is antisymmetric on them. *)
Lemma sorted_unique {A} (R : A -> A -> Prop) (l1 : list A) :
  forall l2,
  StronglySorted R l1 -> StronglySorted R l2 -> Permutation l1 l2 ->
  (forall a b, In a l1 -> In b l1 -> R a b -> R b a -> a = b) ->
  l1 = l2.
Proof.
  induction l1 as [|a l1 IH]; intros l2 H1 H2 Hp Hanti.
  - apply Permutation_nil in Hp. now subst.
  - destruct l2 as [|b l2].
    { apply Permutation_sym, Permutation_nil in Hp. discriminate. }
    apply StronglySorted_inv in H1. destruct H1 as [H1 Ha].
    apply StronglySorted_inv in H2. destruct H2 as [H2 Hb].
    rewrite Forall_forall in Ha, Hb.
    assert (Hab : a = b).
    { assert (Hin_a : In a (b :: l2))
        by (apply (Permutation_in _ Hp); now left).
      assert (Hin_b : In b (a :: l1))
        by (apply (Permutation_in _ (Permutation_sym Hp)); now left).
      destruct Hin_a as [->|Hin_a]; [reflexivity|].
      destruct Hin_b as [->|Hin_b]; [reflexivity|].
      apply Hanti; [now left | now right | now apply Ha | now apply Hb]. }
    subst b. f_equal. apply Permutation_cons_inv in Hp.
    apply IH; auto. intros x y Hx Hy. apply Hanti; now right.
Qed.

Lemma NoDup_map_inj {A B} (h : A -> B) (l : list A) (a b : A) :
  NoDup (map h l) -> In a l -> In b l -> h a = h b -> a = b.
Proof.
  induction l as [|x l IH]; intros Hnd Ha Hb Hab; [easy|].
  cbn [map] in Hnd. apply NoDup_cons_iff in Hnd. destruct Hnd as [Hx Hnd].
  destruct Ha as [->|Ha], Hb as [->|Hb]; auto.
  - exfalso. apply Hx. rewrite Hab. now apply in_map.
  - exfalso. apply Hx. rewrite <- Hab. now apply in_map.
Qed.

(** X12: When no two keys of the table have the same count, the ranking of
    the least frequent, taken whole, is the ranking of the most frequent
    in reverse. *)
Theorem least_is_reverse_of_most (f : frequency_table) (k : Z) :
  NoDup (values f) ->
  Z.of_nat (length f) <= k ->
  rank_least_frequent f k = rev (rank_most_frequent f k).
Proof.
  intros Hv Hk. unfold rank_least_frequent, rank_most_frequent.
  rewrite !slice_to_nonneg by lia.
  rewrite !firstn_all2 by (rewrite sorted_length; lia).
  apply (sorted_unique (key_order snd false)).
  - apply sorted_ordered.
  - apply (StronglySorted_rev (key_order snd true)), sorted_ordered.
  - eapply perm_trans; [apply sorted_perm|].
    eapply perm_trans; [|apply Permutation_rev].
    apply Permutation_sym, sorted_perm.
  - intros a b Ha Hb Hab Hba. unfold key_order in Hab, Hba.
    apply sorted_In in Ha, Hb.
    apply (NoDup_map_inj snd f a b Hv Ha Hb). lia.
Qed.

Lemma least_is_reverse_of_most_witness :
  NoDup (values [(7, 10); (13, 9); (20, 8)]) /\
  rank_least_frequent [(7, 10); (13, 9); (20, 8)] 10
    = rev (rank_most_frequent [(7, 10); (13, 9); (20, 8)] 10).
Proof.
  assert (H : NoDup (values [(7, 10); (13, 9); (20, 8)])).
  { repeat constructor; simpl; intuition lia. }
  split; [exact H|].
  apply (least_is_reverse_of_most [(7, 10); (13, 9); (20, 8)] 10 H).
  simpl. lia.
Defined.

(** With ties the two rankings are not reverses of each other. *)
Example least_not_reverse_with_ties :
  rank_least_frequent sample_table 5 <> rev (rank_most_frequent sample_table 5).
Proof. discriminate. Qed.

(* ================================================================== *)
(** * The entries of a batch *)

Lemma entries_loop_from (db : database) (lottery_type : string)
  (f : frequency_table) :
  calculate_frequency db lottery_type = Ok f ->
  forall (indices : list Z) (entries : list entry) (g : rng),
  exists added g',
    entries_loop db lottery_type indices entries g
      = Ok (entries ++ added, g') /\
    Forall2 (entry_from db lottery_type) indices added.
Proof.
  intros Hf. induction indices as [|i indices IH]; intros entries g.
  - exists [], g. rewrite app_nil_r. split; [reflexivity | constructor].
  - cbn [entries_loop].
    set (s := nth _ strategies "").
    destruct (generate_entry_shape db lottery_type f Hf s g)
      as [l [g1 [Hg _]]].
    set (e := {| entry_number := i + 1; strategy := s;
                 numbers := sorted id false l |}).
    destruct (IH (entries ++ [e]) g1) as [added [g' [Hl Hall]]].
    exists (e :: added), g'. unfold bind. rewrite Hg. fold e.
    rewrite Hl, <- app_assoc. split; [reflexivity|].
    constructor; [|exact Hall].
    split; [split; reflexivity|]. exists g, g1. exact Hg.
Qed.

Lemma batch_entry_from (db : database) (lottery_type : string)
  (f : frequency_table) (n : Z) (g g' : rng) (entries : list entry) :
  calculate_frequency db lottery_type = Ok f ->
  generate_optimal_entries db lottery_type n g = Ok (entries, g') ->
  forall e, In e entries -> exists i, entry_from db lottery_type i e.
Proof.
  intros Hf Hg e He.
  destruct (entries_loop_from db lottery_type f Hf (py_range 0 n) [] g)
    as [added [g1 [Hl Hall]]].
  unfold generate_optimal_entries in Hg. rewrite Hl in Hg.
  injection Hg as <- _. cbn [app] in He.
  clear Hl. induction Hall as [|i x idx xs Hix _ IH]; [easy|].
  destruct He as [<-|He]; [eauto | now apply IH].
Qed.

(** X13: Every entry of a batch is sorted ascending; its numbers are in the
    range of the lottery when the keys of the table are; and it is a
    valid entry when the table is empty. *)
Theorem batch_entries_sorted
  (db : database) (lottery_type : string) (f : frequency_table)
  (n : Z) (g g' : rng) (entries : list entry) :
  calculate_frequency db lottery_type = Ok f ->
  generate_optimal_entries db lottery_type n g = Ok (entries, g') ->
  forall e, In e entries ->
    StronglySorted Z.le (numbers e) /\
    (in_range (fst (get_number_ranges lottery_type))
              (snd (get_number_ranges lottery_type)) (keys f) ->
     in_range (fst (get_number_ranges lottery_type))
              (snd (get_number_ranges lottery_type)) (numbers e)) /\
    (f = [] -> valid_entry lottery_type (numbers e)).
Proof.
  intros Hf Hg e He.
  destruct (batch_entry_from db lottery_type f n g g' entries Hf Hg e He)
    as [i [_ [g1 [g2 Hgen]]]].
  destruct (generate_entry_shape db lottery_type f Hf (strategy e) g1)
    as [l [g3 [Hshape [Hin Hv]]]].
  rewrite Hshape in Hgen. injection Hgen as Hnum _. rewrite <- Hnum.
  split; [apply sorted_id_sorted|]. split.
  - intros Hr. specialize (Hin Hr).
    unfold in_range in *. rewrite Forall_forall in *.
    intros x Hx. apply Hin. now apply sorted_In in Hx.
  - intros He'. destruct (Hv (or_introl He')) as [Hlen Hnd].
    apply sorted_valid; auto. apply Hin. subst f. constructor.
Qed.

Lemma batch_entries_sorted_witness :
  calculate_frequency powerball_no_draws "powerball" = Ok [] /\
  generate_optimal_entries powerball_no_draws "powerball" 2 (rng_of (fun n => n))
    = Ok ([{| entry_number := 1; strategy := "hot";
              numbers := [1; 2; 3; 4; 5; 6; 7] |};
           {| entry_number := 2; strategy := "balanced";
              numbers := [8; 9; 10; 11; 12; 13; 14] |}],
          {| tape := fun n => n; pos := 14 |}) /\
  valid_entry "powerball" [8; 9; 10; 11; 12; 13; 14].
Proof.
  assert (Hg : generate_optimal_entries powerball_no_draws "powerball" 2
                 (rng_of (fun n => n))
               = Ok ([{| entry_number := 1; strategy := "hot";
                         numbers := [1; 2; 3; 4; 5; 6; 7] |};
                      {| entry_number := 2; strategy := "balanced";
                         numbers := [8; 9; 10; 11; 12; 13; 14] |}],
                     {| tape := fun n => n; pos := 14 |}))
    by (vm_compute; reflexivity).
  split; [reflexivity|]. split; [exact Hg|].
  refine (proj2 (proj2 (batch_entries_sorted powerball_no_draws "powerball" []
                          2 (rng_of (fun n => n)) _ _ eq_refl Hg
                          {| entry_number := 2; strategy := "balanced";
                             numbers := [8; 9; 10; 11; 12; 13; 14] |} _))
                eq_refl).
  right. now left.
Defined.

(** X14: On a non-empty table all cold entries of a batch carry the same
    numbers. *)
Theorem batch_cold_entries_equal
  (db : database) (lottery_type : string) (f : frequency_table)
  (n : Z) (g g' : rng) (entries : list entry) :
  calculate_frequency db lottery_type = Ok f ->
  f <> [] ->
  generate_optimal_entries db lottery_type n g = Ok (entries, g') ->
  forall e, In e entries -> strategy e = "cold" ->
    numbers e = sorted id false (cold_selection lottery_type f).
Proof.
  intros Hf Hne Hg e He Hs.
  destruct (batch_entry_from db lottery_type f n g g' entries Hf Hg e He)
    as [i [_ [g1 [g2 Hgen]]]].
  rewrite Hs, (cold_entry_shape db lottery_type f Hf g1 Hne) in Hgen.
  now injection Hgen.
Qed.

Lemma batch_cold_entries_equal_witness :
  calculate_frequency lotto649_repeats "lotto649" = Ok [(7, 3); (3, 1)] /\
  generate_optimal_entries lotto649_repeats "lotto649" 3 (rng_of (fun n => n))
    = Ok ([{| entry_number := 1; strategy := "hot"; numbers := [1; 3; 7] |};
           {| entry_number := 2; strategy := "balanced";
              numbers := [2; 3; 3; 5; 7; 7] |};
           {| entry_number := 3; strategy := "cold"; numbers := [3; 7] |}],
          {| tape := fun n => n; pos := 3 |}) /\
  [3; 7] = sorted id false (cold_selection "lotto649" [(7, 3); (3, 1)]).
Proof.
  assert (Hg : generate_optimal_entries lotto649_repeats "lotto649" 3
                 (rng_of (fun n => n))
               = Ok ([{| entry_number := 1; strategy := "hot";
                         numbers := [1; 3; 7] |};
                      {| entry_number := 2; strategy := "balanced";
                         numbers := [2; 3; 3; 5; 7; 7] |};
                      {| entry_number := 3; strategy := "cold";
                         numbers := [3; 7] |}],
                     {| tape := fun n => n; pos := 3 |}))
    by (vm_compute; reflexivity).
  split; [reflexivity|]. split; [exact Hg|].
  refine (batch_cold_entries_equal lotto649_repeats "lotto649" [(7, 3); (3, 1)]
            3 (rng_of (fun n => n)) _ _ eq_refl _ Hg
            {| entry_number := 3; strategy := "cold"; numbers := [3; 7] |}
            _ eq_refl).
  - discriminate.
  - right. right. now left.
Defined.

(* ================================================================== *)
(** * More on the table of a history *)

Lemma counter_add_keys_eq (k : Z) (f : frequency_table) :
  keys (counter_add k f) = if mem k (keys f) then keys f else keys f ++ [k].
Proof.
  induction f as [|[k0 c] f IH]; cbn [counter_add keys map mem existsb fst];
    [reflexivity|].
  destruct (k =? k0) eqn:E; cbn [orb keys map fst].
  - reflexivity.
  - fold (keys (counter_add k f)) (keys f) (mem k (keys f)). rewrite IH.
    now destruct (mem k (keys f)).
Qed.

Lemma filter_absorb (seen : list Z) (x : Z) (l : list Z) :
  mem x seen = true ->
  filter (fun y => negb (mem y seen)) (filter (fun y => negb (y =? x)) l)
  = filter (fun y => negb (mem y seen)) l.
Proof.
  intros Hx. induction l as [|y l IH]; cbn [filter]; [reflexivity|].
  destruct (y =? x) eqn:E; cbn [negb filter].
  - apply Z.eqb_eq in E. subst y. now rewrite Hx.
  - now rewrite IH.
Qed.

Lemma filter_snoc_seen (seen : list Z) (x : Z) (l : list Z) :
  filter (fun y => negb (mem y (seen ++ [x]))) l
  = filter (fun y => negb (mem y seen)) (filter (fun y => negb (y =? x)) l).
Proof.
  induction l as [|y l IH]; cbn [filter]; [reflexivity|].
  unfold mem at 1. rewrite existsb_app. cbn [existsb]. rewrite orb_false_r.
  fold (mem y seen).
  destruct (y =? x); cbn [negb filter].
  - rewrite orb_true_r. exact IH.
  - rewrite orb_false_r. now rewrite IH.
Qed.

Lemma counter_update_key_order (ns : list Z) (f : frequency_table) :
  keys (counter_update f ns)
  = keys f ++ filter (fun y => negb (mem y (keys f))) (first_occurrences ns).
Proof.
  revert f; induction ns as [|x ns IH]; intros f.
  - cbn. now rewrite app_nil_r.
  - change (counter_update f (x :: ns))
      with (counter_update (counter_add x f) ns).
    rewrite IH, counter_add_keys_eq. cbn [first_occurrences filter].
    destruct (mem x (keys f)) eqn:Hx; cbn [negb].
    + now rewrite filter_absorb.
    + rewrite <- app_assoc. cbn [app]. now rewrite filter_snoc_seen.
Qed.

(** X15: The keys of the table are the numbers of the history in the order in
    which they first occur; that order decides the ties of the
    rankings. *)
Theorem table_keys_first_occurrence
  (db : database) (lottery_type : string) (all_draws : list (list Z)) :
  get_all_drawn_numbers db lottery_type = Ok all_draws ->
  exists f,
    calculate_frequency db lottery_type = Ok f /\
    keys f = first_occurrences (concat all_draws).
Proof.
  intros Hd. exists (count_draws all_draws). split.
  - unfold calculate_frequency. now rewrite Hd.
  - rewrite count_draws_flat, counter_update_key_order. cbn [keys map app].
    apply forallb_filter_id. apply forallb_forall. reflexivity.
Qed.

Lemma table_keys_first_occurrence_witness :
  get_all_drawn_numbers lotto649_repeats "lotto649" = Ok [[7; 7; 3]; [7]] /\
  exists f,
    calculate_frequency lotto649_repeats "lotto649" = Ok f /\
    keys f = [7; 3].
Proof.
  split; [reflexivity|].
  exact (table_keys_first_occurrence lotto649_repeats "lotto649"
           [[7; 7; 3]; [7]] eq_refl).
Defined.

Lemma count_occ_concat_perm (l1 l2 : list (list Z)) (k : Z) :
  Permutation l1 l2 ->
  count_occ Z.eq_dec (concat l1) k = count_occ Z.eq_dec (concat l2) k.
Proof.
  induction 1; cbn [concat]; rewrite ?count_occ_app; lia.
Qed.

Lemma count_draws_get (all_draws : list (list Z)) (k : Z) :
  get_count (count_draws all_draws) k
  = Z.of_nat (count_occ Z.eq_dec (concat all_draws) k).
Proof.
  rewrite count_draws_flat, counter_update_get. cbn [get_count]. lia.
Qed.

(** X16: The count of a number does not depend on the order of the draws:
    two histories with the same draws in another order give the same
    count to every number. *)
Theorem counts_ignore_draw_order (draws1 draws2 : list (list Z)) (k : Z) :
  Permutation draws1 draws2 ->
  get_count (count_draws draws1) k = get_count (count_draws draws2) k.
Proof.
  intros Hp. rewrite !count_draws_get. f_equal.
  now apply count_occ_concat_perm.
Qed.

Lemma counts_ignore_draw_order_witness :
  Permutation [[1; 2]; [2; 3]] [[2; 3]; [1; 2]] /\
  get_count (count_draws [[1; 2]; [2; 3]]) 2
    = get_count (count_draws [[2; 3]; [1; 2]]) 2.
Proof.
  assert (H : Permutation [[1; 2]; [2; 3]] [[2; 3]; [1; 2]]) by apply perm_swap.
  split; [exact H|].
  exact (counts_ignore_draw_order _ _ 2 H).
Defined.

(** The order of the keys does depend on the order of the draws. *)
Example keys_follow_draw_order :
  keys (count_draws [[1; 2]; [2; 3]]) = [1; 2; 3] /\
  keys (count_draws [[2; 3]; [1; 2]]) = [2; 3; 1].
Proof. split; reflexivity. Qed.

(** X17: When no draw has a number twice, the count of a number is the number
    of draws it is in. *)
Theorem count_is_number_of_draws (all_draws : list (list Z)) (k : Z) :
  Forall (@NoDup Z) all_draws ->
  get_count (count_draws all_draws) k
  = Z.of_nat (length (filter (mem k) all_draws)) /\
  get_count (count_draws all_draws) k <= Z.of_nat (length all_draws).
Proof.
  intros Hnd. rewrite count_draws_get.
  assert (H : count_occ Z.eq_dec (concat all_draws) k
              = length (filter (mem k) all_draws)).
  { induction Hnd as [|d ds Hd _ IH]; [reflexivity|].
    cbn [concat filter]. rewrite count_occ_app, IH.
    destruct (mem k d) eqn:Hk.
    - apply mem_In in Hk.
      pose proof (proj1 (NoDup_count_occ' Z.eq_dec d) Hd k Hk) as H1.
      cbn [length]. lia.
    - assert (Hn : ~ In k d).
      { intros Hin. apply mem_In in Hin. congruence. }
      apply (count_occ_not_In Z.eq_dec) in Hn. lia. }
  rewrite H. split; [reflexivity|].
  apply inj_le, filter_length_le.
Qed.

Lemma count_is_number_of_draws_witness :
  Forall (@NoDup Z) [[1; 2]; [2; 3]] /\
  get_count (count_draws [[1; 2]; [2; 3]]) 2 = 2.
Proof.
  assert (H : Forall (@NoDup Z) [[1; 2]; [2; 3]]).
  { repeat constructor; simpl; intuition lia. }
  split; [exact H|].
  exact (proj1 (count_is_number_of_draws [[1; 2]; [2; 3]] 2 H)).
Defined.

(** X18: The random strategy does not look at the history: two databases
    whose tables can be read give the same entry from the same source
    of randomness. *)
Theorem random_strategy_ignores_history
  (db1 db2 : database) (lottery_type : string)
  (f1 f2 : frequency_table) (g : rng) :
  calculate_frequency db1 lottery_type = Ok f1 ->
  calculate_frequency db2 lottery_type = Ok f2 ->
  generate_frequency_based_entry db1 lottery_type "random" g
  = generate_frequency_based_entry db2 lottery_type "random" g.
Proof.
  intros H1 H2.
  rewrite (random_strategy_shape db1 lottery_type f1 H1 g).
  rewrite (random_strategy_shape db2 lottery_type f2 H2 g).
  reflexivity.
Qed.

Lemma random_strategy_ignores_history_witness :
  calculate_frequency lotto649_single_draw "lotto649"
    = Ok [(1, 1); (2, 1); (3, 1); (4, 1); (5, 1); (6, 1)] /\
  calculate_frequency lotto649_repeats "lotto649" = Ok [(7, 3); (3, 1)] /\
  generate_frequency_based_entry lotto649_single_draw "lotto649" "random"
    (rng_of (fun n => n))
  = generate_frequency_based_entry lotto649_repeats "lotto649" "random"
      (rng_of (fun n => n)).
Proof.
  split; [reflexivity|]. split; [reflexivity|].
  exact (random_strategy_ignores_history lotto649_single_draw lotto649_repeats
           "lotto649" _ _ (rng_of (fun n => n)) eq_refl eq_refl).
Defined.

(** X8: With seven numbers to an entry, every lottery but Lotto 6/49, and
    three keys in the table, the balanced strategy takes six numbers
    from the rankings and draws exactly one, from the numbers of the
    range outside those six. *)
Theorem balanced_seven_one_draw
  (db : database) (lottery_type : string) (f : frequency_table) (g : rng) :
  lottery_type <> "lotto649" ->
  calculate_frequency db lottery_type = Ok f ->
  3 <= Z.of_nat (length (keys f)) ->
  exists x g',
    generate_frequency_based_entry db lottery_type "balanced" g
      = Ok (sorted id false (balanced_picks lottery_type f ++ [x]), g') /\
    length (balanced_picks lottery_type f) = 6%nat /\
    In x (pool_of lottery_type (balanced_picks lottery_type f)).
Proof.
  intros Hlt Hf Hlen.
  pose proof (numbers_needed_unknown lottery_type Hlt) as Hn.
  assert (Hpicks : length (balanced_picks lottery_type f) = 6%nat).
  { unfold balanced_picks, rank_most_frequent, rank_least_frequent.
    rewrite Hn. change (7 / 2) with 3. rewrite length_app.
    pose proof (ranked_keys_length f true 7 3 ltac:(lia)) as H1.
    pose proof (ranked_keys_length f false 7 3 ltac:(lia)) as H2.
    lia. }
  assert (Hne : f <> []).
  { intros ->. simpl in Hlen. lia. }
  destruct (balanced_entry_shape db lottery_type f Hf g Hne)
    as [added [g' [Hg [Hl [_ Hin]]]]].
  rewrite length_app, Hpicks, Hn in Hl.
  destruct added as [|x [|y added]]; cbn [length] in Hl; try lia.
  exists x, g'. split; [exact Hg|]. split; [exact Hpicks|].
  apply remaining_pool_In. apply Hin. now left.
Qed.

Lemma balanced_seven_one_draw_witness :
  "lottomax" <> "lotto649" /\
  calculate_frequency
    (single_table "lottomax_results" ["1,2,3"; ""; "4,-5,2"]) "lottomax"
    = Ok [(1, 1); (2, 2); (3, 1); (4, 1)] /\
  exists x g',
    generate_frequency_based_entry
      (single_table "lottomax_results" ["1,2,3"; ""; "4,-5,2"])
      "lottomax" "balanced" (rng_of (fun n => n))
      = Ok (sorted id false ([2; 1; 3; 1; 3; 4] ++ [x]), g').
Proof.
  split; [discriminate|]. split; [reflexivity|].
  destruct (balanced_seven_one_draw
              (single_table "lottomax_results" ["1,2,3"; ""; "4,-5,2"])
              "lottomax" [(1, 1); (2, 2); (3, 1); (4, 1)]
              (rng_of (fun n => n)) ltac:(discriminate) eq_refl
              ltac:(simpl; lia)) as [x [g' [Hg _]]].
  exists x, g'. exact Hg.
Defined.

(* ================================================================== *)
(** * The draws taken from a table of the results page *)

Lemma findall_numbers_shape (lead_max : nat) :
  (lead_max <= 57)%nat ->
  forall (n : nat) (s : string) (prev_word : bool),
  (String.length s <= n)%nat ->
  Forall (fun m => PyStr.all_chars PyStr.is_decimal m = true /\
                   PyStr.is_empty m = false /\
                   (String.length m <= 2)%nat)
         (Scraper.findall_numbers lead_max prev_word s).
Proof.
  intros Hlead.
  assert (Hl : forall c, Scraper.is_lead lead_max c = true ->
                         PyStr.is_decimal c = true).
  { intros c. unfold Scraper.is_lead, PyStr.is_decimal. intros H.
    apply andb_true_iff in H. destruct H as [H1 H2].
    apply Nat.leb_le in H1, H2.
    apply andb_true_iff. split; apply Nat.leb_le; lia. }
  induction n as [|n IH]; intros s prev Hs.
  - destruct s; [constructor | cbn [String.length] in Hs; lia].
  - destruct s as [|c1 rest]; [constructor|].
    cbn [String.length] in Hs. cbn [Scraper.findall_numbers].
    destruct prev; [apply IH; lia|].
    destruct rest as [|c2 rest2].
    + destruct (PyStr.is_decimal c1) eqn:E1; [|constructor].
      constructor; [|constructor].
      cbn [PyStr.all_chars String.length]. rewrite E1. repeat split. lia.
    + cbn [String.length] in Hs.
      destruct (Scraper.is_lead lead_max c1 && PyStr.is_decimal c2
                && Scraper.ends_word rest2) eqn:EA.
      * apply andb_true_iff in EA. destruct EA as [EA _].
        apply andb_true_iff in EA. destruct EA as [E1 E2].
        constructor; [|apply IH; lia].
        cbn [PyStr.all_chars String.length]. rewrite (Hl c1 E1), E2.
        repeat split. lia.
      * destruct (PyStr.is_decimal c1 && Scraper.ends_word (String c2 rest2))
          eqn:EB.
        -- apply andb_true_iff in EB. destruct EB as [E1 _].
           constructor; [|apply IH; cbn [String.length]; lia].
           cbn [PyStr.all_chars String.length]. rewrite E1. repeat split. lia.
        -- apply IH. cbn [String.length]. lia.
Qed.

Lemma int_of_digits (m : string) :
  PyStr.all_chars PyStr.is_decimal m = true ->
  PyStr.is_empty m = false ->
  (String.length m <= 2)%nat ->
  PyStr.int m = Ok (PyStr.decimal_value 0 m).
Proof.
  intros Hd He Hlen. unfold PyStr.int.
  destruct (strip_decimal m Hd) as [_ ->]. rewrite Hd, He.
  assert (Hle : (String.length m <=? PyStr.max_str_digits)%nat = true).
  { apply Nat.leb_le. unfold PyStr.max_str_digits.
    apply (Nat.le_trans _ 2); [exact Hlen|].
    do 2 apply le_n_S. apply Nat.le_0_l. }
  now rewrite Hle.
Qed.

Lemma keep_in_range_ok (hi : Z) (found : list string) :
  Forall (fun m => PyStr.all_chars PyStr.is_decimal m = true /\
                   PyStr.is_empty m = false /\
                   (String.length m <= 2)%nat) found ->
  exists numbers,
    Scraper.keep_in_range hi found = Ok numbers /\
    Forall (fun v => 1 <= v <= hi) numbers.
Proof.
  induction 1 as [|m found [Hd [He Hlen]] _ [numbers [Hk Hr]]].
  - exists []. split; [reflexivity | constructor].
  - cbn [Scraper.keep_in_range].
    rewrite (int_of_digits m Hd He Hlen). cbn [bind_result].
    destruct ((1 <=? PyStr.decimal_value 0 m)
              && (PyStr.decimal_value 0 m <=? hi)) eqn:E.
    + rewrite Hk. cbn [bind_result]. eexists. split; [reflexivity|].
      constructor; [lia | exact Hr].
    + exists numbers. now split.
Qed.

(** The numbers kept from a row: all found in the text, all from 1 to
    the largest number of the lottery. *)
Lemma row_numbers_ok (lead_max : nat) (hi : Z) (numbers_text : string) :
  (lead_max <= 57)%nat ->
  exists kept,
    Scraper.keep_in_range hi
      (Scraper.findall_numbers lead_max false numbers_text) = Ok kept /\
    Forall (fun v => 1 <= v <= hi) kept.
Proof.
  intros Hlead. apply keep_in_range_ok.
  exact (findall_numbers_shape lead_max Hlead _ numbers_text false
           (Nat.le_refl _)).
Qed.

(** X19: A row of a results table never makes the scraper raise; the draw
    taken from it, if any, has exactly the numbers an entry needs, each
    from 1 to the largest number of the lottery, and so has its bonus
    number. *)
Theorem row_draw_in_range
  (lead_max : nat) (hi : Z) (needed : nat) (numbers_text : string) :
  (lead_max <= 57)%nat ->
  exists r,
    Scraper.row_draw lead_max hi needed numbers_text = Ok r /\
    forall numbers bonus, r = Some (numbers, bonus) ->
      length numbers = needed /\
      Forall (fun v => 1 <= v <= hi) numbers /\
      (forall b, bonus = Some b -> 1 <= b <= hi).
Proof.
  intros Hlead. unfold Scraper.row_draw.
  destruct (row_numbers_ok lead_max hi numbers_text Hlead) as [kept [Hk Hr]].
  rewrite Hk. cbn [bind_result].
  destruct (Nat.leb_spec needed (length kept)) as [Hn|Hn].
  - eexists. split; [reflexivity|].
    intros ns bonus [= <- <-]. split; [|split].
    + rewrite length_firstn. lia.
    + rewrite Forall_forall in *. intros v Hv. apply Hr.
      now apply firstn_incl in Hv.
    + intros b Hb. destruct (needed <? length kept)%nat; [|discriminate].
      apply nth_error_In in Hb. rewrite Forall_forall in Hr. now apply Hr.
  - eexists. split; [reflexivity|]. discriminate.
Qed.

Lemma row_draw_in_range_witness :
  (52 <= 57)%nat /\
  Scraper.lotto649_row_draw "3 11, 27 x 49 50 7-8 07 21"
    = Ok (Some ([3; 11; 27; 49; 7; 8], Some 21)) /\
  Forall (fun v => 1 <= v <= 49) [3; 11; 27; 49; 7; 8].
Proof.
  split; [lia|]. split; [reflexivity|].
  destruct (row_draw_in_range 52 49 6 "3 11, 27 x 49 50 7-8 07 21"
              ltac:(lia)) as [r [Hr Hs]].
  change (Scraper.row_draw 52 49 6 "3 11, 27 x 49 50 7-8 07 21")
    with (Ok (Some ([3; 11; 27; 49; 7; 8], Some 21))) in Hr.
  injection Hr as <-.
  exact (proj1 (proj2 (Hs _ _ eq_refl))).
Defined.

(** Nothing makes the numbers of such a draw distinct. *)
Example row_draw_repeats :
  Scraper.lotto649_row_draw "7 7 7 7 7 7" = Ok (Some ([7; 7; 7; 7; 7; 7], None)).
Proof. reflexivity. Qed.

Lemma filter_all (p : Z -> bool) (l : list Z) :
  Forall (fun n => p n = true) l -> filter p l = l.
Proof.
  induction 1 as [|n l Hn _ IH]; cbn [filter]; [reflexivity|].
  now rewrite Hn, IH.
Qed.

Lemma two_digits_below_limit (n : Z) :
  0 <= n < 100 -> Z.abs n < 10 ^ Z.of_nat PyStr.max_str_digits.
Proof.
  intros Hn. rewrite Z.abs_eq by lia.
  apply (Z.lt_le_trans _ (10 ^ 2)); [change (10 ^ 2) with 100; lia|].
  apply Z.pow_le_mono_r; [lia|].
  change 2 with (Z.of_nat 2). apply inj_le.
  unfold PyStr.max_str_digits. do 2 apply le_n_S. apply Nat.le_0_l.
Qed.

Lemma numbers_text_small (numbers : list Z) :
  Forall (fun n => 0 <= n < 100) numbers ->
  exists text, numbers_text numbers = Ok text.
Proof.
  intros H. unfold numbers_text.
  assert (Hs : exists strs, map_result PyStr.str numbers = Ok strs).
  { induction H as [|n l Hn _ [strs IH]]; [now exists []|].
    cbn [map_result]. rewrite (str_ok n (two_digits_below_limit n Hn)), IH.
    cbn [bind_result]. eauto. }
  destruct Hs as [strs ->]. cbn [bind_result]. eauto.
Qed.

(** X20: A draw taken from a results table, stored by the scraper, is read
    back by the analyser as the same numbers, which lie in the range of
    the lottery and are as many as an entry has. *)
Theorem scraped_draw_read_back (text : string) (numbers : list Z)
  (bonus : option Z) :
  (Scraper.lotto649_row_draw text = Ok (Some (numbers, bonus)) ->
   exists stored,
     numbers_text numbers = Ok stored /\
     parse_numbers stored = Ok numbers /\
     in_range (fst (get_number_ranges "lotto649"))
              (snd (get_number_ranges "lotto649")) numbers /\
     Z.of_nat (length numbers) = numbers_needed_of "lotto649") /\
  (Scraper.lottomax_row_draw text = Ok (Some (numbers, bonus)) ->
   exists stored,
     numbers_text numbers = Ok stored /\
     parse_numbers stored = Ok numbers /\
     in_range (fst (get_number_ranges "lottomax"))
              (snd (get_number_ranges "lottomax")) numbers /\
     Z.of_nat (length numbers) = numbers_needed_of "lottomax").
Proof.
  assert (H : forall lead_max hi needed,
            (lead_max <= 57)%nat -> hi < 100 ->
            Scraper.row_draw lead_max hi needed text = Ok (Some (numbers, bonus)) ->
            exists stored,
              numbers_text numbers = Ok stored /\
              parse_numbers stored = Ok numbers /\
              in_range 1 hi numbers /\ length numbers = needed).
  { intros lead_max hi needed Hlead Hhi Hrow.
    unfold Scraper.row_draw in Hrow.
    destruct (row_numbers_ok lead_max hi text Hlead) as [kept [Hk Hkept]].
    rewrite Hk in Hrow. cbn [bind_result] in Hrow.
    destruct (Nat.leb_spec needed (length kept)) as [Hn|Hn]; [|discriminate].
    injection Hrow as Hnum _.
    assert (Hlen : length numbers = needed)
      by (rewrite <- Hnum, length_firstn; lia).
    assert (Hrange : Forall (fun v => 1 <= v <= hi) numbers).
    { rewrite <- Hnum. rewrite Forall_forall in *. intros v Hv. apply Hkept.
      now apply firstn_incl in Hv. }
    destruct (numbers_text_small numbers) as [stored Hstored].
    { revert Hrange. apply Forall_impl. intros n Hn'. lia. }
    exists stored. split; [exact Hstored|]. split; [|now split].
    destruct (numbers_text_inv numbers stored Hstored) as [strs [Hall Ht]].
    rewrite Ht, (parse_joined_texts numbers strs Hall).
    f_equal. apply filter_all.
    revert Hrange. apply Forall_impl. intros n Hn'. lia. }
  split; intros Hrow.
  - destruct (H 52%nat 49 6%nat ltac:(lia) ltac:(lia) Hrow)
      as [stored [H1 [H2 [H3 H4]]]].
    exists stored. repeat split; auto. now rewrite H4.
  - destruct (H 53%nat 50 7%nat ltac:(lia) ltac:(lia) Hrow)
      as [stored [H1 [H2 [H3 H4]]]].
    exists stored. repeat split; auto. now rewrite H4.
Qed.

Lemma scraped_draw_read_back_witness :
  Scraper.lotto649_row_draw "3 11, 27 x 49 50 7-8 07 21"
    = Ok (Some ([3; 11; 27; 49; 7; 8], Some 21)) /\
  exists stored,
    numbers_text [3; 11; 27; 49; 7; 8] = Ok stored /\
    parse_numbers stored = Ok [3; 11; 27; 49; 7; 8] /\
    in_range (fst (get_number_ranges "lotto649"))
             (snd (get_number_ranges "lotto649")) [3; 11; 27; 49; 7; 8] /\
    Z.of_nat (length [3; 11; 27; 49; 7; 8]) = numbers_needed_of "lotto649".
Proof.
  split; [reflexivity|].
  exact (proj1 (scraped_draw_read_back "3 11, 27 x 49 50 7-8 07 21"
                  [3; 11; 27; 49; 7; 8] (Some 21)) eq_refl).
Defined.


Lemma generate_optimal_entries_raises_witness :
  0 <= 0 /\
  calculate_frequency powerball_no_draws "lotto649" = Raise OperationalError /\
  generate_optimal_entries powerball_no_draws "lotto649" 0 (rng_of (fun n => n))
    = Ok ([], rng_of (fun n => n)) /\
  generate_optimal_entries powerball_no_draws "lotto649" 1 (rng_of (fun n => n))
    = Raise OperationalError.
Proof.
  split; [lia|]. split; [reflexivity|]. split.
  - apply (proj1 (generate_optimal_entries_raises powerball_no_draws "lotto649"
                    0 (rng_of (fun n => n)))). lia.
  - apply (proj2 (generate_optimal_entries_raises powerball_no_draws "lotto649"
                    1 (rng_of (fun n => n))) OperationalError).
    split; [lia | reflexivity].
Defined.
